(** * OSS-backend: the record-management handlers of [main.py]

    A shallow embedding of the FastAPI/SQLAlchemy handlers of [main.py]
    (users, mentors, service providers) and the properties of its
    specification.

    Modelling choices, all stated once here:
    - a Python [str] is a Rocq [string] (a sequence of bytes, read as its
      UTF-8 encoding, so [.encode("utf-8")] and [.decode("utf-8")] are the
      identity); a Python [int] is a [Z];
    - the relational store is three tables; a table is the list of its rows
      in insertion order together with its AUTO_INCREMENT counter.  The
      database engine keeps a value offered for a [String(n)] or [Integer]
      column as it is, or refuses the INSERT; which values it keeps is a
      parameter, the [Engine];
    - [User.email == email] is equality of strings;
    - [ilike] is rendered by the ORM as [lower(column) LIKE lower(pattern)];
      [lower] folds the ASCII letters, and LIKE has the wildcards [%] and
      [_] (one character, whatever its length in bytes) and the escape
      character backslash;
    - [bcrypt.hashpw] raises [ValueError] on a password of more than 72
      bytes; what it computes otherwise is a parameter of the development,
      and the salt drawn by [bcrypt.gensalt()] is an extra argument of
      [register_user]. *)

From Stdlib Require Import List String Ascii ZArith Bool Lia.
Import ListNotations.

Local Open Scope string_scope.
Local Open Scope Z_scope.

(* ================================================================== *)
(** ** Database models (main.py, lines 18-44) *)

Module User.
Record t := Build {
  id : Z;
  name : string;
  email : string;
  phone : string;
  preferred_language : string;
  role : string;
  password_hash : string
}.
End User.

Module Mentor.
Record t := Build {
  id : Z;
  name : string;
  age : Z;
  location : string;
  expertise : string;
  experience : Z
}.
End Mentor.

Module ServiceProvider.
Record t := Build {
  id : Z;
  name : string;
  service_type : string;
  experience : Z;
  pricing_model : string;
  availability : string
}.
End ServiceProvider.

(** A table: its rows, oldest first, and the next key the store hands out
    ([autoincrement=True]). *)
Record Table (R : Type) := mkTable {
  rows : list R;
  auto_increment : Z
}.
Arguments mkTable {R} _ _.
Arguments rows {R} _.
Arguments auto_increment {R} _.

Record Store := mkStore {
  users : Table User.t;
  mentors : Table Mentor.t;
  service_providers : Table ServiceProvider.t
}.

(** What [Base.metadata.create_all] leaves behind on a fresh database. *)
Definition empty_table {R : Type} : Table R := mkTable [] 1.
Definition empty_store : Store := mkStore empty_table empty_table empty_table.

(* ================================================================== *)
(** ** Exceptions and the session monad *)

Inductive Exception :=
| HTTPException (status_code : Z) (detail : string)
| ValueError
| DataError
| IntegrityError
| ProgrammingError.

Inductive Result (A : Type) :=
| Ok (a : A)
| Raise (e : Exception).
Arguments Ok {A} _.
Arguments Raise {A} _.

(** A handler runs against the store ([db: Session = Depends(get_db)]) and
    either returns or raises. *)
Definition Session (A : Type) : Type := Store -> Result A * Store.

Definition ret {A : Type} (a : A) : Session A := fun db => (Ok a, db).

Definition raise {A : Type} (e : Exception) : Session A :=
  fun db => (Raise e, db).

Definition bind {A B : Type} (c : Session A) (k : A -> Session B) : Session B :=
  fun db =>
    match c db with
    | (Ok a, db') => k a db'
    | (Raise e, db') => (Raise e, db')
    end.

(** A call that does not touch the store: it returns or raises. *)
Definition lift {A : Type} (r : Result A) : Session A := fun db => (r, db).

Notation "x <- c ;; k" := (bind c (fun x => k))
  (at level 61, c at next level, right associativity).

(* ================================================================== *)
(** ** The query interface: [db.query(M).filter(c).offset(n).limit(n)] *)

Record Query (R : Type) := mkQuery {
  q_from : Store -> Table R;
  q_where : R -> bool;
  q_offset : option Z;
  q_limit : option Z
}.
Arguments mkQuery {R} _ _ _ _.
Arguments q_from {R} _ _.
Arguments q_where {R} _ _.
Arguments q_offset {R} _.
Arguments q_limit {R} _.

Definition query {R : Type} (from : Store -> Table R) : Query R :=
  mkQuery from (fun _ => true) None None.

Definition filter_by {R : Type} (c : R -> bool) (q : Query R) : Query R :=
  mkQuery (q_from q) (fun r => q_where q r && c r) (q_offset q) (q_limit q).

Definition offset {R : Type} (n : Z) (q : Query R) : Query R :=
  mkQuery (q_from q) (q_where q) (Some n) (q_limit q).

Definition limit {R : Type} (n : Z) (q : Query R) : Query R :=
  mkQuery (q_from q) (q_where q) (q_offset q) (Some n).

Definition negative (n : option Z) : bool :=
  match n with
  | Some z => z <? 0
  | None => false
  end.

Definition drop_offset {R : Type} (n : option Z) (l : list R) : list R :=
  match n with
  | Some z => skipn (Z.to_nat z) l
  | None => l
  end.

Definition take_limit {R : Type} (n : option Z) (l : list R) : list R :=
  match n with
  | Some z => firstn (Z.to_nat z) l
  | None => l
  end.

(** The SELECT a query stands for: WHERE, then OFFSET, then LIMIT, over the
    rows in store order.  The store rejects a negative OFFSET or LIMIT. *)
Definition select {R : Type} (q : Query R) (db : Store) : option (list R) :=
  if negative (q_offset q) || negative (q_limit q) then None
  else Some (take_limit (q_limit q)
               (drop_offset (q_offset q)
                  (filter (q_where q) (rows (q_from q db))))).

(** [.all()] *)
Definition all {R : Type} (q : Query R) : Session (list R) :=
  fun db =>
    match select q db with
    | Some rs => (Ok rs, db)
    | None => (Raise ProgrammingError, db)
    end.

(** [.first()]: the query with LIMIT 1; its row, or [None]. *)
Definition first {R : Type} (q : Query R) : Session (option R) :=
  rs <- all (limit 1 q) ;; ret (hd_error rs).

(* ================================================================== *)
(** ** Writes: [db.add(obj); db.commit(); db.refresh(obj)]

    The object is built without a key; the INSERT gives it the table's
    AUTO_INCREMENT value, and [refresh] reads the stored row back. *)

Definition insert {R : Type} (obj : Z -> R) (t : Table R) : R * Table R :=
  let r := obj (auto_increment t) in
  (r, mkTable (rows t ++ [r]) (auto_increment t + 1)).

(** What the database engine does with a value offered for a column of the
    declared type: it keeps the value as it is ([true]) or refuses the
    statement ([false]). *)
Record Engine := mkEngine {
  accepts_integer : Z -> bool;
  accepts_string : nat -> string -> bool
}.

(** The columns of the three models, as declared (main.py, lines 18-44);
    the key is the store's own. *)
Definition accepts_user (e : Engine) (u : User.t) : bool :=
  accepts_string e 100 (User.name u)
  && accepts_string e 100 (User.email u)
  && accepts_string e 15 (User.phone u)
  && accepts_string e 50 (User.preferred_language u)
  && accepts_string e 50 (User.role u)
  && accepts_string e 255 (User.password_hash u).

Definition accepts_mentor (e : Engine) (m : Mentor.t) : bool :=
  accepts_string e 100 (Mentor.name m)
  && accepts_integer e (Mentor.age m)
  && accepts_string e 100 (Mentor.location m)
  && accepts_string e 255 (Mentor.expertise m)
  && accepts_integer e (Mentor.experience m).

Definition accepts_service_provider (e : Engine) (p : ServiceProvider.t)
  : bool :=
  accepts_string e 100 (ServiceProvider.name p)
  && accepts_string e 255 (ServiceProvider.service_type p)
  && accepts_integer e (ServiceProvider.experience p)
  && accepts_string e 100 (ServiceProvider.pricing_model p)
  && accepts_string e 50 (ServiceProvider.availability p).

(** A refused INSERT raises and stores nothing.  [users.email] is declared
    [unique=True]: the store also refuses a second row with the same
    email. *)
Definition add_user (e : Engine) (obj : Z -> User.t) : Session User.t :=
  fun db =>
    let (r, t) := insert obj (users db) in
    if negb (accepts_user e r) then (Raise DataError, db)
    else if existsb (fun u => (User.email u =? User.email r)%string)
              (rows (users db))
    then (Raise IntegrityError, db)
    else (Ok r, mkStore t (mentors db) (service_providers db)).

Definition add_mentor (e : Engine) (obj : Z -> Mentor.t) : Session Mentor.t :=
  fun db =>
    let (r, t) := insert obj (mentors db) in
    if negb (accepts_mentor e r) then (Raise DataError, db)
    else (Ok r, mkStore (users db) t (service_providers db)).

Definition add_service_provider (e : Engine) (obj : Z -> ServiceProvider.t)
  : Session ServiceProvider.t :=
  fun db =>
    let (r, t) := insert obj (service_providers db) in
    if negb (accepts_service_provider e r) then (Raise DataError, db)
    else (Ok r, mkStore (users db) (mentors db) t).

(* ================================================================== *)
(** ** [ilike]: case folding and LIKE patterns *)

Definition percent : ascii := ascii_of_nat 37.
Definition underscore : ascii := ascii_of_nat 95.
Definition backslash : ascii := ascii_of_nat 92.

(** SQL [lower] on one character: [A]..[Z] go to [a]..[z]. *)
Definition lower_char (c : ascii) : ascii :=
  let n := nat_of_ascii c in
  if (Nat.leb 65 n && Nat.leb n 90)%bool then ascii_of_nat (n + 32) else c.

Fixpoint lower (s : string) : string :=
  match s with
  | EmptyString => EmptyString
  | String c s' => String (lower_char c) (lower s')
  end.

(** The bytes of UTF-8: a byte below 128 is a character of its own; the
    bytes 128..191 continue the character begun before them. *)
Definition is_ascii (c : ascii) : bool := Nat.ltb (nat_of_ascii c) 128.

Definition is_continuation (c : ascii) : bool :=
  let n := nat_of_ascii c in
  (Nat.leb 128 n && Nat.ltb n 192)%bool.

Fixpoint drop_continuation (s : string) : string :=
  match s with
  | EmptyString => EmptyString
  | String c s' => if is_continuation c then drop_continuation s' else s
  end.

(** What is left of a string after the character that begins with [c]. *)
Definition after_char (c : ascii) (s' : string) : string :=
  if is_ascii c then s' else drop_continuation s'.

(** The elements of a LIKE pattern. *)
Inductive Wild :=
| AnyString
| AnyChar
| Lit (c : ascii).

(** Reading a pattern: [%] is any string, [_] is any one character (all its
    bytes), and a
    backslash makes the character after it literal (a backslash that ends
    the pattern stands for itself). *)
Fixpoint like_pattern (p : string) : list Wild :=
  match p with
  | EmptyString => []
  | String c p' =>
    if (c =? percent)%char then AnyString :: like_pattern p'
    else if (c =? underscore)%char then AnyChar :: like_pattern p'
    else if (c =? backslash)%char then
      match p' with
      | EmptyString => [Lit c]
      | String d p'' => Lit d :: like_pattern p''
      end
    else Lit c :: like_pattern p'
  end.

Fixpoint like_match (p : list Wild) (s : string) {struct p} : bool :=
  match p with
  | [] =>
    match s with
    | EmptyString => true
    | String _ _ => false
    end
  | AnyString :: p' =>
    (fix from (s : string) : bool :=
       like_match p' s
       || match s with
          | EmptyString => false
          | String _ s' => from s'
          end) s
  | AnyChar :: p' =>
    match s with
    | EmptyString => false
    | String c s' => like_match p' (after_char c s')
    end
  | Lit c :: p' =>
    match s with
    | EmptyString => false
    | String d s' => (c =? d)%char && like_match p' s'
    end
  end.

(** [column LIKE pattern] *)
Definition like (column pattern : string) : bool :=
  like_match (like_pattern pattern) column.

(** [column.ilike(pattern)], that is [lower(column) LIKE lower(pattern)]. *)
Definition ilike (column pattern : string) : bool :=
  like (lower column) (lower pattern).

(** The f-string [f"%{x}%"]. *)
Definition percent_wrap (x : string) : string :=
  String percent (x ++ String percent EmptyString).

(* ================================================================== *)
(** ** Response bodies *)

Inductive Value :=
| VInt (z : Z)
| VStr (s : string).

(** A Python dict literal: its items in order. *)
Definition Dict : Type := list (string * Value).

Definition keys (d : Dict) : list string := map fst d.

Fixpoint get (k : string) (d : Dict) : option Value :=
  match d with
  | [] => None
  | (k', v) :: d' => if (k' =? k)%string then Some v else get k d'
  end.

(** The columns of a [User] row, as the mapped class declares them: what
    serialising the ORM object gives. *)
Definition user_columns (u : User.t) : Dict :=
  [ ("id", VInt (User.id u));
    ("name", VStr (User.name u));
    ("email", VStr (User.email u));
    ("phone", VStr (User.phone u));
    ("preferred_language", VStr (User.preferred_language u));
    ("role", VStr (User.role u));
    ("password_hash", VStr (User.password_hash u)) ].

(** A parameter with a default: [skip: int = 0], [limit: int = Form(10)]. *)
Definition default {A : Type} (d : A) (x : option A) : A :=
  match x with
  | Some a => a
  | None => d
  end.

(* ================================================================== *)
(** ** The handlers (main.py, lines 57-193) *)

Section Handlers.

(** [bcrypt.hashpw(password, salt)] on a password it takes. *)
Variable bcrypt_hashpw : string -> string -> string.

(** The database engine behind the session. *)
Variable engine : Engine.

(** [hash_password]; [salt] is the value of [bcrypt.gensalt()].  The library
    refuses a password of more than 72 bytes. *)
Definition hash_password (password salt : string) : Result string :=
  if Nat.ltb 72 (String.length password) then Raise ValueError
  else Ok (bcrypt_hashpw password salt).

(** POST /register/ *)
Definition register_user
  (name email phone preferred_language role password : string)
  (salt : string) : Session Dict :=
  existing <- first (filter_by (fun u => (User.email u =? email)%string)
                       (query users)) ;;
  match existing with
  | Some _ => raise (HTTPException 400 "Email already registered")
  | None =>
    hashed_password <- lift (hash_password password salt) ;;
    db_user <- add_user engine (fun id =>
                 User.Build id name email phone preferred_language role
                   hashed_password) ;;
    ret [ ("id", VInt (User.id db_user));
          ("name", VStr (User.name db_user));
          ("email", VStr (User.email db_user));
          ("phone", VStr (User.phone db_user));
          ("preferred_language", VStr (User.preferred_language db_user));
          ("role", VStr (User.role db_user)) ]
  end.

(** POST /users/ *)
Definition fetch_users (skip limit_ : option Z) : Session (list User.t) :=
  let skip := default 0 skip in
  let limit_ := default 10 limit_ in
  all (limit limit_ (offset skip (query users))).

(** POST /mentors/ *)
Definition register_mentor
  (name : string) (age : Z) (location expertise : string) (experience : Z)
  : Session Dict :=
  db_mentor <- add_mentor engine (fun id =>
                 Mentor.Build id name age location expertise experience) ;;
  ret [ ("id", VInt (Mentor.id db_mentor));
        ("name", VStr (Mentor.name db_mentor));
        ("age", VInt (Mentor.age db_mentor));
        ("location", VStr (Mentor.location db_mentor));
        ("expertise", VStr (Mentor.expertise db_mentor));
        ("experience", VInt (Mentor.experience db_mentor)) ].

(** GET /mentors/ *)
Definition fetch_mentors (skip limit_ : option Z) : Session (list Mentor.t) :=
  let skip := default 0 skip in
  let limit_ := default 10 limit_ in
  all (limit limit_ (offset skip (query mentors))).

(** POST /mentors/search/ *)
Definition search_mentors_by_expertise (expertise : string)
  : Session (list Mentor.t) :=
  mentors <- all (filter_by
                    (fun m => ilike (Mentor.expertise m)
                                (percent_wrap expertise))
                    (query mentors)) ;;
  match mentors with
  | [] => raise (HTTPException 404 "No mentors found with the given expertise")
  | _ :: _ => ret mentors
  end.

(** POST /service-providers/ *)
Definition register_service_provider
  (name service_type : string) (experience : Z)
  (pricing_model availability : string) : Session Dict :=
  db_provider <- add_service_provider engine (fun id =>
                   ServiceProvider.Build id name service_type experience
                     pricing_model availability) ;;
  ret [ ("id", VInt (ServiceProvider.id db_provider));
        ("name", VStr (ServiceProvider.name db_provider));
        ("service_type", VStr (ServiceProvider.service_type db_provider));
        ("experience", VInt (ServiceProvider.experience db_provider));
        ("pricing_model", VStr (ServiceProvider.pricing_model db_provider));
        ("availability", VStr (ServiceProvider.availability db_provider)) ].

(** GET /service-providers/ *)
Definition fetch_service_providers (skip limit_ : option Z)
  : Session (list ServiceProvider.t) :=
  let skip := default 0 skip in
  let limit_ := default 10 limit_ in
  all (limit limit_ (offset skip (query service_providers))).

(** GET /service-providers/{provider_id} *)
Definition fetch_service_provider (provider_id : Z)
  : Session ServiceProvider.t :=
  provider <- first (filter_by
                       (fun p => ServiceProvider.id p =? provider_id)
                       (query service_providers)) ;;
  match provider with
  | None => raise (HTTPException 404 "Service provider not found")
  | Some p => ret p
  end.

(** POST /service-providers/search/ (the second function of the source that
    is named [search_mentors_by_expertise]). *)
Definition search_providers_by_service_type (service_type : string)
  : Session (list ServiceProvider.t) :=
  provider <- all (filter_by
                     (fun p => ilike (ServiceProvider.service_type p)
                                 (percent_wrap service_type))
                     (query service_providers)) ;;
  match provider with
  | [] => raise (HTTPException 404 "No mentors found with the given expertise")
  | _ :: _ => ret provider
  end.

End Handlers.

(* ================================================================== *)
(** ** The application: one request, one handler *)

Inductive Request :=
| POST_register
    (name email phone preferred_language role password : string)
    (salt : string)
| POST_users (skip limit_ : option Z)
| POST_mentors
    (name : string) (age : Z) (location expertise : string) (experience : Z)
| GET_mentors (skip limit_ : option Z)
| POST_mentors_search (expertise : string)
| POST_service_providers
    (name service_type : string) (experience : Z)
    (pricing_model availability : string)
| GET_service_providers (skip limit_ : option Z)
| GET_service_provider (provider_id : Z)
| POST_service_providers_search (service_type : string).

Inductive Body :=
| JsonDict (d : Dict)
| JsonUsers (l : list User.t)
| JsonMentors (l : list Mentor.t)
| JsonProviders (l : list ServiceProvider.t)
| JsonProvider (p : ServiceProvider.t).

Definition respond {A : Type} (f : A -> Body) (c : Session A) : Session Body :=
  a <- c ;; ret (f a).

Definition app (bcrypt_hashpw : string -> string -> string)
  (engine : Engine) (r : Request) : Session Body :=
  match r with
  | POST_register name email phone preferred_language role password salt =>
    respond JsonDict
      (register_user bcrypt_hashpw engine name email phone
         preferred_language role password salt)
  | POST_users skip limit_ => respond JsonUsers (fetch_users skip limit_)
  | POST_mentors name age location expertise experience =>
    respond JsonDict
      (register_mentor engine name age location expertise experience)
  | GET_mentors skip limit_ => respond JsonMentors (fetch_mentors skip limit_)
  | POST_mentors_search expertise =>
    respond JsonMentors (search_mentors_by_expertise expertise)
  | POST_service_providers name service_type experience pricing_model
      availability =>
    respond JsonDict
      (register_service_provider engine name service_type experience
         pricing_model availability)
  | GET_service_providers skip limit_ =>
    respond JsonProviders (fetch_service_providers skip limit_)
  | GET_service_provider provider_id =>
    respond JsonProvider (fetch_service_provider provider_id)
  | POST_service_providers_search service_type =>
    respond JsonProviders (search_providers_by_service_type service_type)
  end.

(** The store after a sequence of requests. *)
Fixpoint serve (bcrypt_hashpw : string -> string -> string)
  (engine : Engine) (rs : list Request) (db : Store) : Store :=
  match rs with
  | [] => db
  | r :: rs' =>
    serve bcrypt_hashpw engine rs' (snd (app bcrypt_hashpw engine r db))
  end.

(* ================================================================== *)
(** ** The store's own invariants *)

(** Primary keys: no key twice, and every key below the counter. *)
Definition keys_ok {R : Type} (id : R -> Z) (t : Table R) : Prop :=
  NoDup (map id (rows t)) /\ Forall (fun r => id r < auto_increment t) (rows t).

Definition consistent (db : Store) : Prop :=
  keys_ok User.id (users db)
  /\ keys_ok Mentor.id (mentors db)
  /\ keys_ok ServiceProvider.id (service_providers db)
  /\ NoDup (map User.email (rows (users db))).

(* ================================================================== *)
(** ** The specification's vocabulary *)

(** [needle] is a prefix of [hay]. *)
Fixpoint startswith (needle hay : string) : bool :=
  match needle, hay with
  | EmptyString, _ => true
  | String _ _, EmptyString => false
  | String c n', String d h' => (c =? d)%char && startswith n' h'
  end.

(** [needle in hay]: substring containment. *)
Fixpoint contains (needle hay : string) : bool :=
  startswith needle hay
  || match hay with
     | EmptyString => false
     | String _ h' => contains needle h'
     end.

(** Case-insensitive substring match of a query against a field. *)
Definition contains_ci (query_ field : string) : bool :=
  contains (lower query_) (lower field).

(** The characters LIKE gives a meaning to. *)
Definition wildcard (c : ascii) : bool :=
  ((c =? percent)%char || (c =? underscore)%char || (c =? backslash)%char)%bool.

(** A query with no such character. *)
Fixpoint plain (s : string) : bool :=
  match s with
  | EmptyString => true
  | String c s' => negb (wildcard c) && plain s'
  end.

(** A string read as a pattern of literal characters. *)
Fixpoint literally (s : string) : list Wild :=
  match s with
  | EmptyString => []
  | String c s' => Lit c :: literally s'
  end.

(** [rs] is the window of [l] that skips [skip] records and then holds at
    most [limit_] of them, in the order of [l]. *)
Definition window {R : Type} (skip limit_ : Z) (l rs : list R) : Prop :=
  List.length rs
  = Nat.min (Z.to_nat limit_) (List.length l - Z.to_nat skip)%nat
  /\ forall i : nat,
       (i < List.length rs)%nat ->
       nth_error rs i = nth_error l (Z.to_nat skip + i)%nat.

(** A search result: the matches, or 404 when there are none. *)
Definition found_or_404 {R : Type} (matches : list R) : Result (list R) :=
  match matches with
  | [] => Raise (HTTPException 404 "No mentors found with the given expertise")
  | _ :: _ => Ok matches
  end.

(** One row more at the end, everything before it as it was. *)
Definition appended {R : Type} (t t' : Table R) : Prop :=
  exists r, t' = mkTable (rows t ++ [r])%list (auto_increment t + 1).

(** The table a request writes to, if it writes at all. *)
Inductive TableName :=
| Users
| Mentors
| ServiceProviders.

Definition writes_to (r : Request) : option TableName :=
  match r with
  | POST_register _ _ _ _ _ _ _ => Some Users
  | POST_mentors _ _ _ _ _ => Some Mentors
  | POST_service_providers _ _ _ _ _ => Some ServiceProviders
  | _ => None
  end.

(** One row appended to the named table, the other two tables untouched. *)
Definition appended_to (tn : TableName) (db db' : Store) : Prop :=
  match tn with
  | Users =>
    appended (users db) (users db')
    /\ mentors db' = mentors db
    /\ service_providers db' = service_providers db
  | Mentors =>
    users db' = users db
    /\ appended (mentors db) (mentors db')
    /\ service_providers db' = service_providers db
  | ServiceProviders =>
    users db' = users db
    /\ mentors db' = mentors db
    /\ appended (service_providers db) (service_providers db')
  end.

(** Every table of [db] is an initial segment of the same table of [db']. *)
Definition extends (db db' : Store) : Prop :=
  (exists more, rows (users db') = (rows (users db) ++ more)%list)
  /\ (exists more, rows (mentors db') = (rows (mentors db) ++ more)%list)
  /\ (exists more,
        rows (service_providers db')
        = (rows (service_providers db) ++ more)%list).

(** A string without the LIKE escape character. *)
Fixpoint no_backslash (s : string) : bool :=
  match s with
  | EmptyString => true
  | String c s' => negb (c =? backslash)%char && no_backslash s'
  end.

(** The number of characters of a UTF-8 string: a byte begins a character
    unless it continues one ([inside] says that a character of several bytes
    is under way). *)
Fixpoint count_chars (inside : bool) (s : string) : nat :=
  match s with
  | EmptyString => O
  | String c s' =>
    if is_continuation c
    then (if inside then count_chars true s' else S (count_chars true s'))
    else S (count_chars (negb (is_ascii c)) s')
  end.

Definition char_length (s : string) : nat := count_chars false s.

(** The string of [n] underscores. *)
Fixpoint underscores (n : nat) : string :=
  match n with
  | O => EmptyString
  | S n' => String underscore (underscores n')
  end.

(** Keys handed out from 1 upwards without gaps: the [k]-th row of the
    table has the key [k], and the counter is one past the last key. *)
Definition dense {R : Type} (id : R -> Z) (t : Table R) : Prop :=
  map id (rows t) = map Z.of_nat (seq 1 (List.length (rows t)))
  /\ auto_increment t = Z.of_nat (List.length (rows t)) + 1.

(* ================================================================== *)
(** ** Sample data *)

Definition sample_hashpw (password salt : string) : string :=
  "$2b$12$" ++ salt ++ "." ++ password.

(** MySQL in strict mode: an INT is a signed 32-bit integer, and a
    VARCHAR(n) holds at most [n] characters. *)
Definition mysql_strict : Engine :=
  mkEngine
    (fun z => (-2147483648 <=? z) && (z <=? 2147483647))
    (fun n s => Nat.leb (char_length s) n).

(** A password of 73 bytes. *)
Definition long_password : string :=
  "0123456789012345678901234567890123456789012345678901234567890123456789012".

Definition asha : Mentor.t :=
  Mentor.Build 1 "Asha" 41 "Pune" "Data Science" 12.

Definition ravi : Mentor.t :=
  Mentor.Build 2 "Ravi" 35 "Nashik" "Organic farming" 8.

Definition numbered_mentor (n : nat) : Mentor.t :=
  Mentor.Build (Z.of_nat n) "Mentor" 30 "Pune" "Data Science" (Z.of_nat n).

Definition tailor : ServiceProvider.t :=
  ServiceProvider.Build 1 "Meera" "Tailoring" 6 "per piece" "weekdays".

Definition priya : User.t :=
  User.Build 1 "Priya" "priya@example.org" "5550100" "hi" "artisan"
    (sample_hashpw "s3cret" "salt").

Definition sample_store : Store :=
  mkStore (mkTable [priya] 2) (mkTable [asha; ravi] 3) (mkTable [tailor] 2).

Definition fifteen_mentors : Store :=
  mkStore empty_table (mkTable (map numbered_mentor (seq 1 15)) 16) empty_table.

(* ================================================================== *)
(** ** The query interface, characterised *)

Lemma hd_error_firstn_filter {R : Type} (c : R -> bool) (l : list R) :
  hd_error (firstn 1 (filter c l)) = find c l.
Proof.
  induction l as [|r l IH]; simpl; [reflexivity|].
  destruct (c r); simpl; [reflexivity | exact IH].
Qed.

Lemma filter_everything {R : Type} (l : list R) :
  filter (fun _ => true) l = l.
Proof.
  induction l as [|r l IH]; simpl; [reflexivity | now rewrite IH].
Qed.

(** [db.query(M).filter(c).all()] is the rows satisfying [c], in order. *)
Lemma all_filter_by {R : Type} (tbl : Store -> Table R) (c : R -> bool)
  (db : Store) :
  all (filter_by c (query tbl)) db = (Ok (filter c (rows (tbl db))), db).
Proof. reflexivity. Qed.

(** [db.query(M).filter(c).first()] is the oldest row satisfying [c]. *)
Lemma first_filter_by {R : Type} (tbl : Store -> Table R) (c : R -> bool)
  (db : Store) :
  first (filter_by c (query tbl)) db = (Ok (find c (rows (tbl db))), db).
Proof.
  rewrite <- (hd_error_firstn_filter c). reflexivity.
Qed.

(** [db.query(M).offset(s).limit(n).all()] with nothing negative. *)
Lemma all_offset_limit {R : Type} (tbl : Store -> Table R) (s n : Z)
  (db : Store) :
  0 <= s -> 0 <= n ->
  all (limit n (offset s (query tbl))) db
  = (Ok (firstn (Z.to_nat n) (skipn (Z.to_nat s) (rows (tbl db)))), db).
Proof.
  intros Hs Hn. unfold all, select; simpl.
  destruct (Z.ltb_spec s 0); [lia|].
  destruct (Z.ltb_spec n 0); [lia|].
  simpl. now rewrite filter_everything.
Qed.

Lemma window_firstn_skipn {R : Type} (s n : Z) (l : list R) :
  window s n l (firstn (Z.to_nat n) (skipn (Z.to_nat s) l)).
Proof.
  split.
  - now rewrite length_firstn, length_skipn.
  - intros i Hi. rewrite length_firstn in Hi.
    rewrite nth_error_firstn.
    destruct (Nat.ltb_spec i (Z.to_nat n)); [|lia].
    now rewrite nth_error_skipn.
Qed.

(** A window is determined by the table: the specification's wording fixes
    the result. *)
Lemma window_unique {R : Type} (s n : Z) (l rs rs' : list R) :
  window s n l rs -> window s n l rs' -> rs = rs'.
Proof.
  intros [Hlen Hnth] [Hlen' Hnth'].
  apply nth_error_ext. intro i.
  destruct (Nat.lt_ge_cases i (List.length rs)) as [Hi|Hi].
  - rewrite Hnth by exact Hi. rewrite Hnth' by lia. reflexivity.
  - transitivity (@None R); [|symmetry]; apply nth_error_None; lia.
Qed.

Lemma find_some_email (email : string) (l : list User.t) :
  (exists u, In u l /\ User.email u = email) ->
  exists u, find (fun u => (User.email u =? email)%string) l = Some u.
Proof.
  intros [u [Hin He]].
  destruct (find _ l) as [v|] eqn:Hf; [now exists v|].
  apply (find_none _ _ Hf) in Hin. simpl in Hin.
  apply String.eqb_neq in Hin. contradiction.
Qed.

Lemma find_none_email (email : string) (l : list User.t) :
  (forall u, In u l -> User.email u <> email) ->
  find (fun u => (User.email u =? email)%string) l = None.
Proof.
  intro H. destruct (find _ l) as [v|] eqn:Hf; [|reflexivity].
  apply find_some in Hf. destruct Hf as [Hin He].
  apply String.eqb_eq in He. now apply H in Hin.
Qed.

Lemma existsb_none_email (email : string) (l : list User.t) :
  (forall u, In u l -> User.email u <> email) ->
  existsb (fun u => (User.email u =? email)%string) l = false.
Proof.
  intro H. induction l as [|v l IH]; simpl; [reflexivity|].
  rewrite IH by (intros u Hu; apply H; now right).
  destruct (String.eqb_spec (User.email v) email) as [E|E]; [|reflexivity].
  exfalso. apply (H v); [now left | exact E].
Qed.

(* ================================================================== *)
(** ** User registration *)

(** [register_user] in one equation: the pre-check, then the hash library,
    then the engine decide. *)
Lemma register_user_by_find
  (bcrypt_hashpw : string -> string -> string) (engine : Engine)
  (db : Store)
  (name email phone preferred_language role password salt : string) :
  register_user bcrypt_hashpw engine name email phone preferred_language role
    password salt db
  = match find (fun u => (User.email u =? email)%string) (rows (users db)) with
    | Some _ => (Raise (HTTPException 400 "Email already registered"), db)
    | None =>
      if Nat.ltb 72 (String.length password) then (Raise ValueError, db)
      else if accepts_user engine
                (User.Build (auto_increment (users db)) name email phone
                   preferred_language role (bcrypt_hashpw password salt))
      then
        (Ok [ ("id", VInt (auto_increment (users db))); ("name", VStr name);
              ("email", VStr email); ("phone", VStr phone);
              ("preferred_language", VStr preferred_language);
              ("role", VStr role) ],
         mkStore
           (mkTable
              (rows (users db)
               ++ [User.Build (auto_increment (users db)) name email phone
                     preferred_language role (bcrypt_hashpw password salt)])
              (auto_increment (users db) + 1))
           (mentors db) (service_providers db))
      else (Raise DataError, db)
    end.
Proof.
  unfold register_user, bind. rewrite first_filter_by.
  destruct (find _ _) as [u|] eqn:Hf; [reflexivity|].
  unfold lift, hash_password.
  destruct (Nat.ltb 72 (String.length password)); [reflexivity|].
  unfold add_user, insert. cbn [fst snd].
  destruct (accepts_user engine _); [|reflexivity].
  cbn [negb User.email].
  rewrite existsb_none_email; [reflexivity|].
  intros v Hv. apply (find_none _ _ Hf) in Hv. simpl in Hv.
  now apply String.eqb_neq.
Qed.

(** C1. Registering with an email that some stored user already has raises
    [HTTPException 400] and leaves the store exactly as it was: no row is
    added and none is changed. *)
Theorem register_user_duplicate_email
  (bcrypt_hashpw : string -> string -> string) (engine : Engine)
  (db : Store)
  (name email phone preferred_language role password salt : string) :
  (exists u, In u (rows (users db)) /\ User.email u = email) ->
  register_user bcrypt_hashpw engine name email phone preferred_language role
    password salt db
  = (Raise (HTTPException 400 "Email already registered"), db).
Proof.
  intro Hdup. rewrite register_user_by_find.
  destruct (find_some_email email _ Hdup) as [u Hu].
  now rewrite Hu.
Qed.

Lemma register_user_duplicate_email_witness :
  (exists u, In u (rows (users sample_store))
             /\ User.email u = "priya@example.org")
  /\ register_user sample_hashpw mysql_strict "Priya K" "priya@example.org"
       "5550199"
       "mr" "mentor" "hunter2" "pepper" sample_store
     = (Raise (HTTPException 400 "Email already registered"), sample_store).
Proof.
  assert (H : exists u, In u (rows (users sample_store))
                        /\ User.email u = "priya@example.org").
  { exists priya. split; [now left | reflexivity]. }
  split; [exact H|].
  exact (register_user_duplicate_email sample_hashpw mysql_strict
           sample_store "Priya K"
           "priya@example.org" "5550199" "mr" "mentor" "hunter2" "pepper" H).
Defined.

(** C2, as the code has it. Registering with an email no stored user has,
    a password of at most 72 bytes and fields the engine accepts for their
    columns succeeds: one row is appended to [users], keyed by the table's
    counter, holding the submitted fields and, as [password_hash], the
    bcrypt hash of the password under the fresh salt; the response is the
    generated id and the five submitted fields, with no [password_hash] and
    no [password] entry. *)
Theorem register_user_fresh_email
  (bcrypt_hashpw : string -> string -> string) (engine : Engine)
  (db : Store)
  (name email phone preferred_language role password salt : string) :
  (forall u, In u (rows (users db)) -> User.email u <> email) ->
  (String.length password <= 72)%nat ->
  accepts_user engine
    (User.Build (auto_increment (users db)) name email phone
       preferred_language role (bcrypt_hashpw password salt)) = true ->
  let id := auto_increment (users db) in
  let row :=
    User.Build id name email phone preferred_language role
      (bcrypt_hashpw password salt) in
  let response :=
    [ ("id", VInt id); ("name", VStr name); ("email", VStr email);
      ("phone", VStr phone);
      ("preferred_language", VStr preferred_language);
      ("role", VStr role) ] in
  register_user bcrypt_hashpw engine name email phone preferred_language role
    password salt db
  = (Ok response,
     mkStore (mkTable (rows (users db) ++ [row]) (id + 1))
       (mentors db) (service_providers db))
  /\ hash_password bcrypt_hashpw password salt
     = Ok (User.password_hash row)
  /\ get "password_hash" response = None
  /\ get "password" response = None
  /\ ~ In "password_hash" (keys response)
  /\ ~ In "password" (keys response).
Proof.
  intros Hfresh Hlen Hacc id row response.
  assert (Hlt : Nat.ltb 72 (String.length password) = false)
    by (apply Nat.ltb_ge; exact Hlen).
  split; [|split; [|split; [reflexivity|split; [reflexivity|]]]].
  - rewrite register_user_by_find.
    now rewrite (find_none_email email _ Hfresh), Hlt, Hacc.
  - unfold hash_password. now rewrite Hlt.
  - split; intro H; simpl in H;
      repeat (destruct H as [H|H]; [discriminate H|]); exact H.
Qed.

Lemma register_user_fresh_email_witness :
  (forall u, In u (rows (users sample_store)) ->
             User.email u <> "kiran@example.org")
  /\ (String.length "hunter2" <= 72)%nat
  /\ accepts_user mysql_strict
       (User.Build 2 "Kiran" "kiran@example.org" "5550123" "te" "farmer"
          (sample_hashpw "hunter2" "pepper")) = true
  /\ fst (register_user sample_hashpw mysql_strict "Kiran"
            "kiran@example.org" "5550123" "te" "farmer" "hunter2" "pepper"
            sample_store)
     = Ok [ ("id", VInt 2); ("name", VStr "Kiran");
            ("email", VStr "kiran@example.org"); ("phone", VStr "5550123");
            ("preferred_language", VStr "te"); ("role", VStr "farmer") ].
Proof.
  assert (H : forall u, In u (rows (users sample_store)) ->
                        User.email u <> "kiran@example.org").
  { intros u [Hu|[]]. subst u. discriminate. }
  assert (Hlen : (String.length "hunter2" <= 72)%nat) by (simpl; lia).
  assert (Hacc : accepts_user mysql_strict
                   (User.Build 2 "Kiran" "kiran@example.org" "5550123" "te"
                      "farmer" (sample_hashpw "hunter2" "pepper")) = true)
    by reflexivity.
  split; [exact H | split; [exact Hlen | split; [exact Hacc|]]].
  destruct (register_user_fresh_email sample_hashpw mysql_strict sample_store
              "Kiran" "kiran@example.org" "5550123" "te" "farmer" "hunter2"
              "pepper" H Hlen Hacc)
    as [E _].
  rewrite E. reflexivity.
Defined.

(** An unused email is not enough: with a password of 73 bytes the hash
    library raises [ValueError] and nothing is written, whatever the hash
    function and the engine. *)
Lemma register_user_long_password_counterexample :
  (forall u, In u (rows (users sample_store)) ->
             User.email u <> "kiran@example.org")
  /\ String.length long_password = 73%nat
  /\ (forall (bcrypt_hashpw : string -> string -> string) (engine : Engine),
        register_user bcrypt_hashpw engine "Kiran" "kiran@example.org"
          "5550123" "te" "farmer" long_password "pepper" sample_store
        = (Raise ValueError, sample_store))
  /\ ~ (forall (bcrypt_hashpw : string -> string -> string)
               (engine : Engine),
          exists response db',
            register_user bcrypt_hashpw engine "Kiran" "kiran@example.org"
              "5550123" "te" "farmer" long_password "pepper" sample_store
            = (Ok response, db')).
Proof.
  assert (H : forall (bcrypt_hashpw : string -> string -> string)
                     (engine : Engine),
             register_user bcrypt_hashpw engine "Kiran" "kiran@example.org"
               "5550123" "te" "farmer" long_password "pepper" sample_store
             = (Raise ValueError, sample_store)).
  { intros bcrypt_hashpw engine. rewrite register_user_by_find. reflexivity. }
  split; [|split; [reflexivity | split; [exact H|]]].
  - intros u [Hu|[]]. subst u. discriminate.
  - intro Hok. destruct (Hok sample_hashpw mysql_strict) as (r & db' & E).
    rewrite H in E. discriminate E.
Qed.

(** The password reaches the store and the response through its hash only:
    two registrations whose passwords are of a length the library takes and
    hash alike are indistinguishable. *)
Lemma register_user_password_through_hash
  (bcrypt_hashpw : string -> string -> string) (engine : Engine)
  (db : Store)
  (name email phone preferred_language role : string)
  (password salt password' salt' : string) :
  (String.length password <= 72)%nat ->
  (String.length password' <= 72)%nat ->
  bcrypt_hashpw password salt = bcrypt_hashpw password' salt' ->
  register_user bcrypt_hashpw engine name email phone preferred_language role
    password salt db
  = register_user bcrypt_hashpw engine name email phone preferred_language role
      password' salt' db.
Proof.
  intros Hl Hl' H. rewrite !register_user_by_find.
  apply Nat.ltb_ge in Hl, Hl'. now rewrite Hl, Hl', H.
Qed.

(* ================================================================== *)
(** ** Listing *)

Lemma page_window {R : Type} (tbl : Store -> Table R) (skip limit_ : Z)
  (db : Store) :
  0 <= skip -> 0 <= limit_ ->
  exists rs,
    all (limit limit_ (offset skip (query tbl))) db = (Ok rs, db)
    /\ window skip limit_ (rows (tbl db)) rs.
Proof.
  intros Hs Hn. eexists. split.
  - apply all_offset_limit; assumption.
  - apply window_firstn_skipn.
Qed.

(** C3. With [skip] and [limit] non-negative, each of the three list
    handlers returns the window of its table that skips [skip] rows and
    holds at most [limit] rows, in insertion order and without filtering,
    and leaves the store alone; an omitted [skip] is 0 and an omitted
    [limit] is 10; over fifteen mentors the default listing is the first
    ten. *)
Theorem list_returns_window (db : Store) (skip limit_ : Z) :
  0 <= skip -> 0 <= limit_ ->
  (exists rs, fetch_users (Some skip) (Some limit_) db = (Ok rs, db)
              /\ window skip limit_ (rows (users db)) rs)
  /\ (exists rs, fetch_mentors (Some skip) (Some limit_) db = (Ok rs, db)
                 /\ window skip limit_ (rows (mentors db)) rs)
  /\ (exists rs, fetch_service_providers (Some skip) (Some limit_) db
                 = (Ok rs, db)
                 /\ window skip limit_ (rows (service_providers db)) rs)
  /\ (fetch_users None None = fetch_users (Some 0) (Some 10)
      /\ fetch_users (Some skip) None = fetch_users (Some skip) (Some 10)
      /\ fetch_users None (Some limit_) = fetch_users (Some 0) (Some limit_))
  /\ (fetch_mentors None None = fetch_mentors (Some 0) (Some 10)
      /\ fetch_mentors (Some skip) None = fetch_mentors (Some skip) (Some 10)
      /\ fetch_mentors None (Some limit_)
         = fetch_mentors (Some 0) (Some limit_))
  /\ (fetch_service_providers None None
      = fetch_service_providers (Some 0) (Some 10)
      /\ fetch_service_providers (Some skip) None
         = fetch_service_providers (Some skip) (Some 10)
      /\ fetch_service_providers None (Some limit_)
         = fetch_service_providers (Some 0) (Some limit_))
  /\ (List.length (rows (mentors db)) = 15%nat ->
      fetch_mentors None None db = (Ok (firstn 10 (rows (mentors db))), db)
      /\ List.length (firstn 10 (rows (mentors db))) = 10%nat).
Proof.
  intros Hs Hn.
  repeat match goal with |- _ /\ _ => split end;
    try reflexivity;
    try (apply page_window; assumption).
  intro H15. split.
  - unfold fetch_mentors; simpl default.
    rewrite all_offset_limit by lia. reflexivity.
  - rewrite length_firstn, H15. reflexivity.
Qed.

Lemma list_returns_window_witness :
  0 <= 0 /\ 0 <= 10
  /\ List.length (rows (mentors fifteen_mentors)) = 15%nat
  /\ fetch_mentors None None fifteen_mentors
     = (Ok (map numbered_mentor (seq 1 10)), fifteen_mentors).
Proof.
  assert (H0 : 0 <= 0) by lia.
  assert (H10 : 0 <= 10) by lia.
  assert (H15 : List.length (rows (mentors fifteen_mentors)) = 15%nat)
    by reflexivity.
  split; [exact H0 | split; [exact H10 | split; [exact H15 |]]].
  destruct (list_returns_window fifteen_mentors 0 10 H0 H10)
    as (_ & _ & _ & _ & _ & _ & Hfirst).
  destruct (Hfirst H15) as [E _].
  rewrite E. reflexivity.
Defined.

(* ================================================================== *)
(** ** LIKE on patterns without wildcards *)

Lemma lower_append (a b : string) :
  lower (a ++ b) = (lower a ++ lower b)%string.
Proof.
  induction a as [|c a IH]; simpl; [reflexivity | now rewrite IH].
Qed.

Lemma lower_percent_wrap (x : string) :
  lower (percent_wrap x) = percent_wrap (lower x).
Proof.
  unfold percent_wrap. simpl. now rewrite lower_append.
Qed.

Lemma wildcard_lower_char (c : ascii) :
  wildcard (lower_char c) = wildcard c.
Proof.
  destruct c as [[] [] [] [] [] [] [] []]; reflexivity.
Qed.

Lemma plain_lower (s : string) : plain (lower s) = plain s.
Proof.
  induction s as [|c s IH]; simpl; [reflexivity|].
  now rewrite wildcard_lower_char, IH.
Qed.

Lemma like_pattern_plain (q r : string) :
  plain q = true ->
  like_pattern (q ++ r) = (literally q ++ like_pattern r)%list.
Proof.
  induction q as [|c q IH]; simpl; [reflexivity|].
  intro H. apply andb_true_iff in H. destruct H as [Hc Hq].
  unfold wildcard in Hc. apply negb_true_iff in Hc.
  apply orb_false_iff in Hc. destruct Hc as [Hc Hb].
  apply orb_false_iff in Hc. destruct Hc as [Hp Hu].
  rewrite Hp, Hu, Hb. now rewrite IH.
Qed.

Lemma like_pattern_percent_wrap (q : string) :
  plain q = true ->
  like_pattern (percent_wrap q)
  = AnyString :: (literally q ++ [AnyString])%list.
Proof.
  intro H. unfold percent_wrap.
  change (like_pattern (String percent (q ++ String percent "")))
    with (AnyString :: like_pattern (q ++ String percent "")).
  now rewrite like_pattern_plain.
Qed.

Lemma like_match_any_string (p : list Wild) (s : string) :
  like_match (AnyString :: p) s
  = like_match p s
    || match s with
       | EmptyString => false
       | String _ s' => like_match (AnyString :: p) s'
       end.
Proof. destruct s; reflexivity. Qed.

Lemma like_match_trailing_any (s : string) : like_match [AnyString] s = true.
Proof.
  induction s as [|c s IH]; [reflexivity|].
  rewrite like_match_any_string, IH. apply orb_true_r.
Qed.

Lemma like_match_literally (q s : string) :
  like_match (literally q ++ [AnyString]) s = startswith q s.
Proof.
  revert s. induction q as [|c q IH]; intro s.
  - simpl literally. simpl app. rewrite like_match_trailing_any.
    destruct s; reflexivity.
  - destruct s as [|d s]; [reflexivity|].
    simpl. now rewrite <- IH.
Qed.

Lemma like_match_contains (q s : string) :
  like_match (AnyString :: (literally q ++ [AnyString])%list) s
  = contains q s.
Proof.
  induction s as [|d s IH].
  - rewrite like_match_any_string, like_match_literally. reflexivity.
  - rewrite like_match_any_string, like_match_literally, IH. reflexivity.
Qed.

(** For a query without wildcards, [ilike] with the pattern [%query%] is
    the case-insensitive substring test. *)
Lemma ilike_plain (field q : string) :
  plain q = true ->
  ilike field (percent_wrap q) = contains_ci q field.
Proof.
  intro H. unfold ilike, like, contains_ci.
  rewrite lower_percent_wrap, like_pattern_percent_wrap
    by (now rewrite plain_lower).
  apply like_match_contains.
Qed.

(** [contains] is containment: the needle sits between a prefix and a
    suffix of the haystack. *)
Lemma startswith_iff (n h : string) :
  startswith n h = true <-> exists post, h = (n ++ post)%string.
Proof.
  revert h. induction n as [|c n IH]; intro h; simpl.
  - split; [intros _; now exists h | reflexivity].
  - destruct h as [|d h].
    + split; [discriminate | intros [post H]; discriminate H].
    + rewrite andb_true_iff, Ascii.eqb_eq, IH. split.
      * intros [-> [post ->]]. now exists post.
      * intros [post H]. injection H as -> ->. split; [reflexivity|].
        now exists post.
Qed.

Lemma contains_iff (n h : string) :
  contains n h = true <-> exists pre post, h = (pre ++ n ++ post)%string.
Proof.
  induction h as [|d h IH]; simpl; rewrite orb_true_iff, startswith_iff.
  - split.
    + intros [[post H]|H]; [|discriminate H]. now exists EmptyString, post.
    + intros [[|c pre] [post H]]; [|discriminate H]. left. now exists post.
  - rewrite IH. split.
    + intros [[post H]|[pre [post H]]].
      * now exists EmptyString, post.
      * exists (String d pre), post. simpl. now rewrite H.
    + intros [[|c pre] [post H]].
      * left. now exists post.
      * right. simpl in H. injection H as -> ->. now exists pre, post.
Qed.

(* ================================================================== *)
(** ** Searching *)

Lemma search_mentors_by_expertise_like (q : string) (db : Store) :
  search_mentors_by_expertise q db
  = (found_or_404
       (filter (fun m => ilike (Mentor.expertise m) (percent_wrap q))
          (rows (mentors db))),
     db).
Proof.
  unfold search_mentors_by_expertise, bind. rewrite all_filter_by.
  now destruct (filter _ _).
Qed.

Lemma search_providers_by_service_type_like (q : string) (db : Store) :
  search_providers_by_service_type q db
  = (found_or_404
       (filter
          (fun p => ilike (ServiceProvider.service_type p) (percent_wrap q))
          (rows (service_providers db))),
     db).
Proof.
  unfold search_providers_by_service_type, bind. rewrite all_filter_by.
  now destruct (filter _ _).
Qed.

Lemma filter_ilike_plain {R : Type} (field : R -> string) (q : string)
  (l : list R) :
  plain q = true ->
  filter (fun r => ilike (field r) (percent_wrap q)) l
  = filter (fun r => contains_ci q (field r)) l.
Proof.
  intro H. apply filter_ext. intro r. now apply ilike_plain.
Qed.

Lemma found_or_404_raise {R : Type} (l : list R) (e : Exception) :
  found_or_404 l = Raise e <->
  l = [] /\ e = HTTPException 404 "No mentors found with the given expertise".
Proof.
  destruct l; simpl; split.
  - intro H. injection H as <-. now split.
  - intros [_ ->]. reflexivity.
  - discriminate.
  - intros [H _]. discriminate H.
Qed.

Lemma found_or_404_ok {R : Type} (l : list R) :
  l <> [] -> found_or_404 l = Ok l.
Proof. destruct l; [contradiction | reflexivity]. Qed.

(** C4, as the code has it. For a query with none of [%], [_] and
    backslash, the mentor search returns exactly the stored mentors whose
    expertise contains the query as a case-insensitive substring, in store
    order (and 404 when there is none); so the query DATA finds a mentor
    whose expertise is Data Science. *)
Theorem search_mentors_plain_query (db : Store) (q : string) :
  plain q = true ->
  search_mentors_by_expertise q db
  = (found_or_404
       (filter (fun m => contains_ci q (Mentor.expertise m))
          (rows (mentors db))),
     db)
  /\ (forall m,
        In m (rows (mentors db)) -> Mentor.expertise m = "Data Science" ->
        exists l,
          search_mentors_by_expertise "DATA" db = (Ok l, db) /\ In m l).
Proof.
  intro Hq. split.
  - rewrite search_mentors_by_expertise_like.
    now rewrite (filter_ilike_plain Mentor.expertise).
  - intros m Hin He.
    rewrite search_mentors_by_expertise_like.
    rewrite (filter_ilike_plain Mentor.expertise) by reflexivity.
    assert (Hm : In m (filter (fun m => contains_ci "DATA" (Mentor.expertise m))
                         (rows (mentors db)))).
    { apply filter_In. split; [exact Hin|]. now rewrite He. }
    eexists. split; [|exact Hm].
    rewrite found_or_404_ok; [reflexivity|].
    intro E. now rewrite E in Hm.
Qed.

Lemma search_mentors_plain_query_witness :
  plain "DATA" = true
  /\ In asha (rows (mentors sample_store))
  /\ Mentor.expertise asha = "Data Science"
  /\ search_mentors_by_expertise "DATA" sample_store
     = (Ok [asha], sample_store).
Proof.
  assert (Hp : plain "DATA" = true) by reflexivity.
  assert (Hin : In asha (rows (mentors sample_store))) by (now left).
  assert (He : Mentor.expertise asha = "Data Science") by reflexivity.
  split; [exact Hp | split; [exact Hin | split; [exact He |]]].
  destruct (search_mentors_plain_query sample_store "DATA" Hp) as [E _].
  rewrite E. reflexivity.
Defined.

(** The query [_] is a LIKE wildcard: the search returns both sample
    mentors although neither expertise contains an underscore, so the result
    is not the mentors that contain the query. *)
Lemma search_mentors_underscore_counterexample :
  search_mentors_by_expertise "_" sample_store
  = (Ok [asha; ravi], sample_store)
  /\ contains_ci "_" (Mentor.expertise asha) = false
  /\ contains_ci "_" (Mentor.expertise ravi) = false
  /\ filter (fun m => contains_ci "_" (Mentor.expertise m))
       (rows (mentors sample_store)) = []
  /\ ~ (forall m,
          In m [asha; ravi] <->
          In m (rows (mentors sample_store))
          /\ contains_ci "_" (Mentor.expertise m) = true).
Proof.
  repeat split.
  intro H. destruct (H asha) as [H1 _].
  destruct (H1 (or_introl eq_refl)) as [_ E]. discriminate E.
Qed.

(** C6, as the code has it. For a query with none of [%], [_] and
    backslash, each search raises [HTTPException 404] exactly when no stored
    record contains the query as a case-insensitive substring of the
    searched field, and otherwise returns the matches, which are not empty;
    the store is left alone either way. *)
Theorem search_404_iff_no_match (db : Store) (q : string) :
  plain q = true ->
  let ms := filter (fun m => contains_ci q (Mentor.expertise m))
              (rows (mentors db)) in
  let ps := filter (fun p => contains_ci q (ServiceProvider.service_type p))
              (rows (service_providers db)) in
  let not_found :=
    HTTPException 404 "No mentors found with the given expertise" in
  (search_mentors_by_expertise q db = (Raise not_found, db) <-> ms = [])
  /\ (ms <> [] -> search_mentors_by_expertise q db = (Ok ms, db))
  /\ (search_providers_by_service_type q db = (Raise not_found, db)
      <-> ps = [])
  /\ (ps <> [] -> search_providers_by_service_type q db = (Ok ps, db))
  /\ snd (search_mentors_by_expertise q db) = db
  /\ snd (search_providers_by_service_type q db) = db.
Proof.
  intros Hq ms ps not_found.
  rewrite search_mentors_by_expertise_like,
    search_providers_by_service_type_like.
  rewrite (filter_ilike_plain Mentor.expertise) by exact Hq.
  rewrite (filter_ilike_plain ServiceProvider.service_type) by exact Hq.
  fold ms ps.
  assert (Hiff : forall (R : Type) (l : list R),
             (found_or_404 l, db) = (Raise not_found, db) <-> l = []).
  { intros R l. split.
    - intro H. injection H as H. now apply found_or_404_raise in H.
    - intros ->. reflexivity. }
  repeat match goal with |- _ /\ _ => split end;
    try apply Hiff; try reflexivity;
    intro H; now rewrite found_or_404_ok.
Qed.

Lemma search_404_iff_no_match_witness :
  plain "zzz-nonexistent" = true
  /\ search_mentors_by_expertise "zzz-nonexistent" sample_store
     = (Raise (HTTPException 404 "No mentors found with the given expertise"),
        sample_store).
Proof.
  assert (Hp : plain "zzz-nonexistent" = true) by reflexivity.
  split; [exact Hp|].
  destruct (search_404_iff_no_match sample_store "zzz-nonexistent" Hp)
    as [[_ H] _].
  apply H. reflexivity.
Defined.

(** The query [%] is a LIKE wildcard: no sample provider has a percent sign
    in its service type, yet the search returns instead of raising 404. *)
Lemma search_providers_percent_counterexample :
  filter (fun p => contains_ci "%" (ServiceProvider.service_type p))
    (rows (service_providers sample_store)) = []
  /\ search_providers_by_service_type "%" sample_store
     = (Ok [tailor], sample_store)
  /\ ~ (filter (fun p => contains_ci "%" (ServiceProvider.service_type p))
          (rows (service_providers sample_store)) = [] ->
        exists e, fst (search_providers_by_service_type "%" sample_store)
                  = Raise e).
Proof.
  split; [reflexivity | split; [reflexivity|]].
  intro H. destruct (H eq_refl) as [e E]. discriminate E.
Qed.

Lemma ilike_empty_query (field : string) :
  ilike field (percent_wrap "") = true.
Proof.
  rewrite ilike_plain by reflexivity.
  unfold contains_ci. now destruct (lower field).
Qed.

Lemma filter_ilike_empty_query {R : Type} (field : R -> string) (l : list R) :
  filter (fun r => ilike (field r) (percent_wrap "")) l = l.
Proof.
  rewrite <- (filter_everything l) at 2.
  apply filter_ext. intro r. apply ilike_empty_query.
Qed.

(** C10. With the empty string as the query, both searches return the whole
    table, and raise [HTTPException 404] exactly when the table is empty. *)
Theorem search_empty_query (db : Store) :
  let not_found :=
    HTTPException 404 "No mentors found with the given expertise" in
  search_mentors_by_expertise "" db = (found_or_404 (rows (mentors db)), db)
  /\ search_providers_by_service_type "" db
     = (found_or_404 (rows (service_providers db)), db)
  /\ (search_mentors_by_expertise "" db = (Raise not_found, db)
      <-> rows (mentors db) = [])
  /\ (search_providers_by_service_type "" db = (Raise not_found, db)
      <-> rows (service_providers db) = [])
  /\ (rows (mentors db) <> [] ->
      search_mentors_by_expertise "" db = (Ok (rows (mentors db)), db))
  /\ (rows (service_providers db) <> [] ->
      search_providers_by_service_type "" db
      = (Ok (rows (service_providers db)), db)).
Proof.
  intro not_found.
  rewrite search_mentors_by_expertise_like,
    search_providers_by_service_type_like.
  rewrite (filter_ilike_empty_query Mentor.expertise).
  rewrite (filter_ilike_empty_query ServiceProvider.service_type).
  assert (Hiff : forall (R : Type) (l : list R),
             (found_or_404 l, db) = (Raise not_found, db) <-> l = []).
  { intros R l. split.
    - intro H. injection H as H. now apply found_or_404_raise in H.
    - intros ->. reflexivity. }
  repeat match goal with |- _ /\ _ => split end;
    try apply Hiff; try reflexivity;
    intro H; now rewrite found_or_404_ok.
Qed.

(* ================================================================== *)
(** ** Service providers: lookup by id *)

Lemma find_id_none (k : Z) (l : list ServiceProvider.t) :
  (forall p, In p l -> ServiceProvider.id p <> k) ->
  find (fun p => ServiceProvider.id p =? k) l = None.
Proof.
  intro H. destruct (find _ l) as [p|] eqn:Hf; [|reflexivity].
  apply find_some in Hf. destruct Hf as [Hin He].
  apply Z.eqb_eq in He. now apply H in Hin.
Qed.

Lemma find_id_unique (k : Z) (l : list ServiceProvider.t)
  (p : ServiceProvider.t) :
  NoDup (map ServiceProvider.id l) ->
  In p l -> ServiceProvider.id p = k ->
  find (fun p => ServiceProvider.id p =? k) l = Some p.
Proof.
  induction l as [|a l IH]; intros Hnd Hin Hk; [contradiction|].
  simpl in Hnd. apply NoDup_cons_iff in Hnd. destruct Hnd as [Hnotin Hnd].
  simpl. destruct (Z.eqb_spec (ServiceProvider.id a) k) as [Ha|Ha].
  - destruct Hin as [->|Hin]; [reflexivity|].
    exfalso. apply Hnotin. rewrite Ha, <- Hk. now apply in_map.
  - destruct Hin as [->|Hin]; [contradiction|]. now apply IH.
Qed.

Lemma find_id_appended (l : list ServiceProvider.t) (p : ServiceProvider.t) :
  Forall (fun r => ServiceProvider.id r < ServiceProvider.id p) l ->
  find (fun r => ServiceProvider.id r =? ServiceProvider.id p) (l ++ [p])
  = Some p.
Proof.
  induction 1 as [|a l Ha _ IH]; simpl.
  - now rewrite Z.eqb_refl.
  - destruct (Z.eqb_spec (ServiceProvider.id a) (ServiceProvider.id p));
      [lia | exact IH].
Qed.

(** [register_service_provider] in one equation: the engine decides. *)
Lemma register_service_provider_by_engine (engine : Engine) (db : Store)
  (name service_type : string) (experience : Z)
  (pricing_model availability : string) :
  let id := auto_increment (service_providers db) in
  let p := ServiceProvider.Build id name service_type experience
             pricing_model availability in
  register_service_provider engine name service_type experience pricing_model
    availability db
  = if accepts_service_provider engine p
    then
      (Ok [ ("id", VInt id); ("name", VStr name);
            ("service_type", VStr service_type);
            ("experience", VInt experience);
            ("pricing_model", VStr pricing_model);
            ("availability", VStr availability) ],
       mkStore (users db) (mentors db)
         (mkTable (rows (service_providers db) ++ [p]) (id + 1)))
    else (Raise DataError, db).
Proof.
  intros id p. unfold register_service_provider, bind, add_service_provider,
    insert.
  fold id. fold p. now destruct (accepts_service_provider engine p).
Qed.

Lemma fetch_appended_provider (db : Store) (p : ServiceProvider.t) :
  Forall (fun r => ServiceProvider.id r < ServiceProvider.id p)
    (rows (service_providers db)) ->
  let db' := mkStore (users db) (mentors db)
               (mkTable (rows (service_providers db) ++ [p])
                  (ServiceProvider.id p + 1)) in
  fetch_service_provider (ServiceProvider.id p) db' = (Ok p, db').
Proof.
  intros Hbelow db'.
  unfold fetch_service_provider, bind. rewrite first_filter_by.
  cbn [service_providers rows db'].
  now rewrite (find_id_appended _ p Hbelow).
Qed.

(** C5. On a store whose provider keys are in order: a registration that
    the engine accepts returns the generated id; and whenever a registration
    returns, fetching the returned id straight away gives a record with
    exactly the submitted name, service type, experience, pricing model and
    availability. *)
Theorem provider_round_trip (engine : Engine) (db : Store)
  (name service_type : string) (experience : Z)
  (pricing_model availability : string) :
  keys_ok ServiceProvider.id (service_providers db) ->
  (accepts_service_provider engine
     (ServiceProvider.Build (auto_increment (service_providers db)) name
        service_type experience pricing_model availability) = true ->
   exists db',
     register_service_provider engine name service_type experience
       pricing_model availability db
     = (Ok [ ("id", VInt (auto_increment (service_providers db)));
             ("name", VStr name);
             ("service_type", VStr service_type);
             ("experience", VInt experience);
             ("pricing_model", VStr pricing_model);
             ("availability", VStr availability) ],
        db'))
  /\ (forall (response : Dict) (db' : Store),
        register_service_provider engine name service_type experience
          pricing_model availability db
        = (Ok response, db') ->
        exists (id : Z) (p : ServiceProvider.t),
          get "id" response = Some (VInt id)
          /\ fetch_service_provider id db' = (Ok p, db')
          /\ ServiceProvider.id p = id
          /\ ServiceProvider.name p = name
          /\ ServiceProvider.service_type p = service_type
          /\ ServiceProvider.experience p = experience
          /\ ServiceProvider.pricing_model p = pricing_model
          /\ ServiceProvider.availability p = availability).
Proof.
  intros [_ Hbelow].
  pose proof (register_service_provider_by_engine engine db name service_type
                experience pricing_model availability) as E.
  cbv zeta in E. split.
  - intro Hacc. rewrite E, Hacc. now eexists.
  - intros response db' Hreg. rewrite E in Hreg.
    destruct (accepts_service_provider engine _); [|discriminate Hreg].
    injection Hreg as <- <-.
    exists (auto_increment (service_providers db)),
      (ServiceProvider.Build (auto_increment (service_providers db))
         name service_type experience pricing_model availability).
    split; [reflexivity|]. split; [|now repeat split].
    exact (fetch_appended_provider db
             (ServiceProvider.Build (auto_increment (service_providers db))
                name service_type experience pricing_model availability)
             Hbelow).
Qed.

Lemma sample_store_keys_ok :
  keys_ok ServiceProvider.id (service_providers sample_store).
Proof.
  split; simpl.
  - repeat constructor. intros [].
  - repeat constructor.
Qed.

Lemma provider_round_trip_witness :
  keys_ok ServiceProvider.id (service_providers sample_store)
  /\ accepts_service_provider mysql_strict
       (ServiceProvider.Build 2 "Lakshmi" "Pottery" 9 "hourly" "weekends")
     = true
  /\ exists (response : Dict) (db' : Store),
       register_service_provider mysql_strict "Lakshmi" "Pottery" 9 "hourly"
         "weekends" sample_store
       = (Ok response, db')
       /\ exists (id : Z) (p : ServiceProvider.t),
            get "id" response = Some (VInt id)
            /\ fetch_service_provider id db' = (Ok p, db')
            /\ ServiceProvider.name p = "Lakshmi".
Proof.
  assert (Hacc : accepts_service_provider mysql_strict
                   (ServiceProvider.Build 2 "Lakshmi" "Pottery" 9 "hourly"
                      "weekends") = true) by reflexivity.
  split; [exact sample_store_keys_ok | split; [exact Hacc|]].
  destruct (provider_round_trip mysql_strict sample_store "Lakshmi" "Pottery"
              9 "hourly" "weekends" sample_store_keys_ok)
    as [Hret Hround].
  destruct (Hret Hacc) as [db' Hreg].
  do 2 eexists. split; [exact Hreg|].
  destruct (Hround _ _ Hreg) as (id & p & Hid & Hget & _ & Hname & _).
  exists id, p. repeat split; assumption.
Defined.

(** C7. On a store whose provider keys are in order: when no provider has
    the id, the lookup raises [HTTPException 404]; when a provider has it,
    the lookup returns that provider, and no other stored provider has the
    id; the store is the same afterwards in both cases. *)
Theorem fetch_service_provider_by_id (db : Store) (provider_id : Z) :
  keys_ok ServiceProvider.id (service_providers db) ->
  ((forall p, In p (rows (service_providers db)) ->
              ServiceProvider.id p <> provider_id) ->
   fetch_service_provider provider_id db
   = (Raise (HTTPException 404 "Service provider not found"), db))
  /\ (forall p, In p (rows (service_providers db)) ->
                ServiceProvider.id p = provider_id ->
                fetch_service_provider provider_id db = (Ok p, db)
                /\ forall p', In p' (rows (service_providers db)) ->
                              ServiceProvider.id p' = provider_id -> p' = p)
  /\ snd (fetch_service_provider provider_id db) = db.
Proof.
  intros [Hnd _].
  assert (Hfetch : forall o,
             find (fun p => ServiceProvider.id p =? provider_id)
               (rows (service_providers db)) = o ->
             fetch_service_provider provider_id db
             = (match o with
                | Some p => Ok p
                | None =>
                  Raise (HTTPException 404 "Service provider not found")
                end, db)).
  { intros o Ho. unfold fetch_service_provider, bind.
    rewrite first_filter_by, Ho. now destruct o. }
  split; [|split].
  - intro Hnone. apply (Hfetch None). now apply find_id_none.
  - intros p Hin Hid. split.
    + apply (Hfetch (Some p)). now apply find_id_unique.
    + intros p' Hin' Hid'.
      pose proof (find_id_unique provider_id _ p Hnd Hin Hid) as E.
      pose proof (find_id_unique provider_id _ p' Hnd Hin' Hid') as E'.
      rewrite E in E'. now injection E'.
  - rewrite (Hfetch _ eq_refl). reflexivity.
Qed.

Lemma fetch_service_provider_by_id_witness :
  keys_ok ServiceProvider.id (service_providers sample_store)
  /\ (forall p, In p (rows (service_providers sample_store)) ->
                ServiceProvider.id p <> 7)
  /\ fetch_service_provider 7 sample_store
     = (Raise (HTTPException 404 "Service provider not found"), sample_store).
Proof.
  assert (Hnone : forall p, In p (rows (service_providers sample_store)) ->
                            ServiceProvider.id p <> 7).
  { intros p [<-|[]]. discriminate. }
  split; [exact sample_store_keys_ok | split; [exact Hnone|]].
  destruct (fetch_service_provider_by_id sample_store 7 sample_store_keys_ok)
    as [H _].
  exact (H Hnone).
Defined.

(* ================================================================== *)
(** ** What a request may do to the store *)

Lemma respond_fst {A : Type} (f : A -> Body) (c : Session A) (db : Store) :
  fst (respond f c db)
  = match fst (c db) with
    | Ok a => Ok (f a)
    | Raise e => Raise e
    end.
Proof.
  unfold respond, bind, ret. now destruct (c db) as [[a|e] db'].
Qed.

Lemma respond_snd {A : Type} (f : A -> Body) (c : Session A) (db : Store) :
  snd (respond f c db) = snd (c db).
Proof.
  unfold respond, bind, ret. now destruct (c db) as [[a|e] db'].
Qed.

Lemma all_snd {R : Type} (q : Query R) (db : Store) : snd (all q db) = db.
Proof. unfold all. now destruct (select q db). Qed.

Lemma search_mentors_snd (q : string) (db : Store) :
  snd (search_mentors_by_expertise q db) = db.
Proof. now rewrite search_mentors_by_expertise_like. Qed.

Lemma search_providers_snd (q : string) (db : Store) :
  snd (search_providers_by_service_type q db) = db.
Proof. now rewrite search_providers_by_service_type_like. Qed.

Lemma fetch_service_provider_snd (k : Z) (db : Store) :
  snd (fetch_service_provider k db) = db.
Proof.
  unfold fetch_service_provider, bind. rewrite first_filter_by.
  now destruct (find _ _).
Qed.

(** The two outcomes of a user registration. *)
Lemma register_user_cases
  (bcrypt_hashpw : string -> string -> string) (engine : Engine)
  (db : Store)
  (name email phone preferred_language role password salt : string) :
  (exists e,
     register_user bcrypt_hashpw engine name email phone preferred_language role
       password salt db = (Raise e, db))
  \/ (exists d u,
        register_user bcrypt_hashpw engine name email phone preferred_language role
          password salt db
        = (Ok d,
           mkStore
             (mkTable (rows (users db) ++ [u]) (auto_increment (users db) + 1))
             (mentors db) (service_providers db))
        /\ User.id u = auto_increment (users db)
        /\ User.email u = email
        /\ forall v, In v (rows (users db)) -> User.email v <> email).
Proof.
  rewrite register_user_by_find.
  destruct (find _ _) as [u|] eqn:Hf; [left; now eexists|].
  destruct (Nat.ltb 72 (String.length password)); [left; now eexists|].
  destruct (accepts_user engine _); [|left; now eexists].
  right. do 2 eexists. split; [reflexivity|]. repeat split.
  intros v Hv. apply (find_none _ _ Hf) in Hv. simpl in Hv.
  now apply String.eqb_neq.
Qed.

(** [register_mentor] in one equation: the engine decides. *)
Lemma register_mentor_by_engine (engine : Engine) (db : Store)
  (name : string) (age : Z) (location expertise : string) (experience : Z) :
  let id := auto_increment (mentors db) in
  let m := Mentor.Build id name age location expertise experience in
  register_mentor engine name age location expertise experience db
  = if accepts_mentor engine m
    then
      (Ok [ ("id", VInt id); ("name", VStr name); ("age", VInt age);
            ("location", VStr location); ("expertise", VStr expertise);
            ("experience", VInt experience) ],
       mkStore (users db) (mkTable (rows (mentors db) ++ [m]) (id + 1))
         (service_providers db))
    else (Raise DataError, db).
Proof.
  intros id m. unfold register_mentor, bind, add_mentor, insert.
  fold id. fold m. now destruct (accepts_mentor engine m).
Qed.

Lemma extends_refl (db : Store) : extends db db.
Proof.
  repeat split; exists []; now rewrite app_nil_r.
Qed.

Lemma extends_trans (a b c : Store) : extends a b -> extends b c -> extends a c.
Proof.
  intros (U & M & P) (U' & M' & P').
  destruct U as [u U], M as [m M], P as [p P].
  destruct U' as [u' U'], M' as [m' M'], P' as [p' P'].
  repeat split; eexists.
  - rewrite U', U, <- app_assoc. reflexivity.
  - rewrite M', M, <- app_assoc. reflexivity.
  - rewrite P', P, <- app_assoc. reflexivity.
Qed.

Lemma appended_rows {R : Type} (t t' : Table R) :
  appended t t' -> exists more, rows t' = (rows t ++ more)%list.
Proof. intros [r ->]. now exists [r]. Qed.

Lemma app_step (bcrypt_hashpw : string -> string -> string) (engine : Engine)
  (r : Request)
  (db : Store) :
  match writes_to r, fst (app bcrypt_hashpw engine r db) with
  | Some tn, Ok _ => appended_to tn db (snd (app bcrypt_hashpw engine r db))
  | _, _ => snd (app bcrypt_hashpw engine r db) = db
  end.
Proof.
  destruct r; simpl writes_to; unfold app;
    rewrite ?respond_fst, ?respond_snd.
  - destruct (register_user_cases bcrypt_hashpw engine db name email phone
                preferred_language role password salt)
      as [[e E]|(d & u & E & _)]; rewrite E; simpl.
    + reflexivity.
    + repeat split. now exists u.
  - unfold fetch_users. apply all_snd.
  - pose proof (register_mentor_by_engine engine db name age location
                  expertise experience) as E.
    cbv zeta in E. rewrite E.
    destruct (accepts_mentor engine _); simpl; [|reflexivity].
    repeat split. now eexists.
  - unfold fetch_mentors. apply all_snd.
  - apply search_mentors_snd.
  - pose proof (register_service_provider_by_engine engine db name
                  service_type experience pricing_model availability) as E.
    cbv zeta in E. rewrite E.
    destruct (accepts_service_provider engine _); simpl; [|reflexivity].
    repeat split. now eexists.
  - unfold fetch_service_providers. apply all_snd.
  - apply fetch_service_provider_snd.
  - apply search_providers_snd.
Qed.

Lemma app_extends (bcrypt_hashpw : string -> string -> string) (engine : Engine)
  (r : Request)
  (db : Store) :
  extends db (snd (app bcrypt_hashpw engine r db)).
Proof.
  pose proof (app_step bcrypt_hashpw engine r db) as H.
  destruct (writes_to r) as [tn|]; [|rewrite H; apply extends_refl].
  destruct (fst (app bcrypt_hashpw engine r db));
    [|rewrite H; apply extends_refl].
  destruct tn; simpl in H; destruct H as (U & M & P);
    repeat split;
    first [ now apply appended_rows
          | exists []; rewrite app_nil_r; congruence ].
Qed.

Lemma serve_extends
  (bcrypt_hashpw : string -> string -> string) (engine : Engine)
  (rs : list Request) (db : Store) :
  extends db (serve bcrypt_hashpw engine rs db).
Proof.
  revert db. induction rs as [|r rs IH]; intro db; simpl.
  - apply extends_refl.
  - eapply extends_trans; [apply app_extends | apply IH].
Qed.

(** C8. A request that raises, and every list, get and search request,
    leaves the store as it was; a registration that returns appends one row
    to the table of its own service and leaves the other two tables as they
    were.  So over any sequence of requests each table only grows at its
    end: no stored row is ever changed or removed. *)
Theorem requests_only_append
  (bcrypt_hashpw : string -> string -> string) (engine : Engine)
  (r : Request)
  (rs : list Request) (db : Store) :
  match writes_to r, fst (app bcrypt_hashpw engine r db) with
  | Some tn, Ok _ => appended_to tn db (snd (app bcrypt_hashpw engine r db))
  | _, _ => snd (app bcrypt_hashpw engine r db) = db
  end
  /\ extends db (serve bcrypt_hashpw engine rs db).
Proof.
  split; [apply app_step | apply serve_extends].
Qed.

(* ================================================================== *)
(** ** Listing users *)

Lemma In_firstn {R : Type} (n : nat) (l : list R) (r : R) :
  In r (firstn n l) -> In r l.
Proof.
  revert l. induction n as [|n IH]; intros [|a l]; simpl; try tauto.
  intros [H|H]; [now left | right; now apply IH].
Qed.

Lemma In_skipn {R : Type} (n : nat) (l : list R) (r : R) :
  In r (skipn n l) -> In r l.
Proof.
  revert l. induction n as [|n IH]; intros [|a l]; simpl; try tauto.
  intro H. right. now apply IH.
Qed.

Lemma In_firstn_skipn {R : Type} (n s : nat) (l : list R) (r : R) :
  In r (firstn n (skipn s l)) -> In r l.
Proof.
  intro H. apply In_firstn in H. now apply In_skipn in H.
Qed.

(** C9. The user listing returns the stored rows themselves: every record it
    returns is a row of [users], and its [password_hash] column is there
    with the stored hash; the response of [register_user] has no such
    entry. *)
Theorem fetch_users_returns_password_hash
  (bcrypt_hashpw : string -> string -> string) (engine : Engine)
  (db : Store)
  (skip limit_ : Z)
  (name email phone preferred_language role password salt : string) :
  0 <= skip -> 0 <= limit_ ->
  (exists rs,
     fetch_users (Some skip) (Some limit_) db = (Ok rs, db)
     /\ window skip limit_ (rows (users db)) rs
     /\ Forall
          (fun u =>
             In u (rows (users db))
             /\ In "password_hash" (keys (user_columns u))
             /\ get "password_hash" (user_columns u)
                = Some (VStr (User.password_hash u)))
          rs)
  /\ match fst (register_user bcrypt_hashpw engine name email phone
                  preferred_language role password salt db) with
     | Ok response =>
       get "password_hash" response = None
       /\ ~ In "password_hash" (keys response)
     | Raise _ => True
     end.
Proof.
  intros Hs Hn. split.
  - eexists. split; [|split].
    + unfold fetch_users. simpl default. now apply all_offset_limit.
    + apply window_firstn_skipn.
    + apply Forall_forall. intros u Hu. split; [|split].
      * exact (In_firstn_skipn _ _ _ _ Hu).
      * simpl. tauto.
      * reflexivity.
  - rewrite register_user_by_find.
    destruct (find _ _); [exact I|].
    destruct (Nat.ltb 72 (String.length password)); [exact I|].
    destruct (accepts_user engine _); [|exact I].
    cbn [fst]. split; [reflexivity|].
    intro H. simpl in H.
    repeat (destruct H as [H|H]; [discriminate H|]). exact H.
Qed.

Lemma fetch_users_returns_password_hash_witness :
  0 <= 0 /\ 0 <= 10
  /\ exists rs,
       fetch_users (Some 0) (Some 10) sample_store = (Ok rs, sample_store)
       /\ Forall
            (fun u =>
               get "password_hash" (user_columns u)
               = Some (VStr (User.password_hash u)))
            rs.
Proof.
  assert (H0 : 0 <= 0) by lia.
  assert (H10 : 0 <= 10) by lia.
  split; [exact H0 | split; [exact H10|]].
  destruct (fetch_users_returns_password_hash sample_hashpw mysql_strict
              sample_store 0 10 "Kiran" "kiran@example.org" "5550123" "te"
              "farmer" "hunter2" "pepper" H0 H10)
    as [(rs & E & _ & Hall) _].
  exists rs. split; [exact E|].
  eapply Forall_impl; [|exact Hall]. intros u (_ & _ & H). exact H.
Defined.

(** A registered user's hash comes back from the listing. *)
Example register_then_list :
  fst (fetch_users None None
         (snd (register_user sample_hashpw mysql_strict "Kiran"
                 "kiran@example.org" "5550123" "te" "farmer" "hunter2"
                 "pepper" empty_store)))
  = Ok [ User.Build 1 "Kiran" "kiran@example.org" "5550123" "te" "farmer"
           (sample_hashpw "hunter2" "pepper") ].
Proof. reflexivity. Qed.

(* ================================================================== *)
(** ** The store's invariants hold in every state the application reaches *)

Lemma keys_ok_appended {R : Type} (id : R -> Z) (t : Table R) (r : R) :
  id r = auto_increment t ->
  keys_ok id t ->
  keys_ok id (mkTable (rows t ++ [r]) (auto_increment t + 1)).
Proof.
  intros Hid [Hnd Hlt]. split; simpl.
  - rewrite map_app. apply NoDup_app; [exact Hnd | |].
    + simpl. constructor; [intros [] | constructor].
    + intros k Hk [<-|[]].
      apply in_map_iff in Hk. destruct Hk as (x & Hx & Hin).
      rewrite Forall_forall in Hlt. apply Hlt in Hin. lia.
  - apply Forall_app. split.
    + eapply Forall_impl; [|exact Hlt]. simpl. intros; lia.
    + constructor; [lia | constructor].
Qed.

Lemma consistent_empty_store : consistent empty_store.
Proof.
  unfold consistent, keys_ok. simpl. repeat split; constructor.
Qed.

Lemma consistent_app
  (bcrypt_hashpw : string -> string -> string) (engine : Engine)
  (r : Request) (db : Store) :
  consistent db -> consistent (snd (app bcrypt_hashpw engine r db)).
Proof.
  intro H. pose proof H as (U & M & P & E).
  destruct r; unfold app; rewrite respond_snd.
  - destruct (register_user_cases bcrypt_hashpw engine db name email phone
                preferred_language role password salt)
      as [[e Hr]|(d & u & Hr & Hid & Hem & Hfresh)]; rewrite Hr;
      [exact H|].
    split; [|split; [exact M | split; [exact P|]]]; simpl.
    + now apply keys_ok_appended.
    + rewrite map_app. apply NoDup_app; [exact E | |].
      * simpl. constructor; [intros [] | constructor].
      * intros k Hk [<-|[]].
        apply in_map_iff in Hk. destruct Hk as (x & Hx & Hin).
        apply (Hfresh x Hin). congruence.
  - unfold fetch_users. now rewrite all_snd.
  - pose proof (register_mentor_by_engine engine db name age location
                  expertise experience) as Hr.
    cbv zeta in Hr. rewrite Hr.
    destruct (accepts_mentor engine _); [|exact H].
    split; [exact U | split; [|split; [exact P | exact E]]].
    now apply keys_ok_appended.
  - unfold fetch_mentors. now rewrite all_snd.
  - now rewrite search_mentors_snd.
  - pose proof (register_service_provider_by_engine engine db name
                  service_type experience pricing_model availability) as Hr.
    cbv zeta in Hr. rewrite Hr.
    destruct (accepts_service_provider engine _); [|exact H].
    split; [exact U | split; [exact M | split; [|exact E]]].
    now apply keys_ok_appended.
  - unfold fetch_service_providers. now rewrite all_snd.
  - now rewrite fetch_service_provider_snd.
  - now rewrite search_providers_snd.
Qed.

(** Starting from the empty store, whatever the requests: keys are unique
    and below the counters, and emails are unique. *)
Lemma consistent_serve
  (bcrypt_hashpw : string -> string -> string) (engine : Engine)
  (rs : list Request) (db : Store) :
  consistent db -> consistent (serve bcrypt_hashpw engine rs db).
Proof.
  revert db. induction rs as [|r rs IH]; intros db H; simpl.
  - exact H.
  - apply IH. now apply consistent_app.
Qed.

Lemma consistent_reachable
  (bcrypt_hashpw : string -> string -> string) (engine : Engine)
  (rs : list Request) :
  consistent (serve bcrypt_hashpw engine rs empty_store).
Proof. apply consistent_serve, consistent_empty_store. Qed.

(** The unique index on [users.email] never refuses an insert that
    [register_user] attempts. *)
Lemma register_user_never_integrity_error
  (bcrypt_hashpw : string -> string -> string) (engine : Engine)
  (db : Store)
  (name email phone preferred_language role password salt : string) :
  fst (register_user bcrypt_hashpw engine name email phone preferred_language role
         password salt db) <> Raise IntegrityError.
Proof.
  rewrite register_user_by_find.
  destruct (find _ _); [discriminate|].
  destruct (Nat.ltb _ _); [discriminate|].
  now destruct (accepts_user engine _).
Qed.

(** The round trip of a provider holds in every state the application
    reaches from the empty store. *)
Corollary provider_round_trip_reachable
  (bcrypt_hashpw : string -> string -> string) (engine : Engine)
  (rs : list Request)
  (name service_type : string) (experience : Z)
  (pricing_model availability : string)
  (response : Dict) (db' : Store) :
  let db := serve bcrypt_hashpw engine rs empty_store in
  register_service_provider engine name service_type experience pricing_model
    availability db
  = (Ok response, db') ->
  get "id" response = Some (VInt (auto_increment (service_providers db)))
  /\ fetch_service_provider (auto_increment (service_providers db)) db'
     = (Ok (ServiceProvider.Build (auto_increment (service_providers db))
              name service_type experience pricing_model availability),
        db').
Proof.
  intros db Hreg.
  destruct (consistent_reachable bcrypt_hashpw engine rs)
    as (_ & _ & [_ P] & _).
  fold db in P.
  pose proof (register_service_provider_by_engine engine db name service_type
                experience pricing_model availability) as E.
  cbv zeta in E. rewrite E in Hreg.
  destruct (accepts_service_provider engine _); [|discriminate Hreg].
  injection Hreg as <- <-. split; [reflexivity|].
  exact (fetch_appended_provider db
           (ServiceProvider.Build (auto_increment (service_providers db))
              name service_type experience pricing_model availability) P).
Qed.

(* ================================================================== *)
(** ** Further properties of the handlers *)

(** *** Pagination *)

Lemma firstn_plus {R : Type} (a b : nat) (l : list R) :
  firstn (a + b) l = (firstn a l ++ firstn b (skipn a l))%list.
Proof.
  revert l. induction a as [|a IH]; intro l; [reflexivity|].
  destruct l as [|x l]; simpl.
  - now rewrite firstn_nil.
  - now rewrite IH.
Qed.

Lemma page_concat {R : Type} (tbl : Store -> Table R) (skip a b : Z)
  (db : Store) :
  0 <= skip -> 0 <= a -> 0 <= b ->
  exists p1 p2,
    all (limit a (offset skip (query tbl))) db = (Ok p1, db)
    /\ all (limit b (offset (skip + a) (query tbl))) db = (Ok p2, db)
    /\ all (limit (a + b) (offset skip (query tbl))) db
       = (Ok (p1 ++ p2)%list, db).
Proof.
  intros Hs Ha Hb.
  rewrite !all_offset_limit by lia.
  do 2 eexists. split; [reflexivity | split; [reflexivity|]].
  rewrite !Z2Nat.inj_add by lia.
  rewrite firstn_plus, skipn_skipn.
  now rewrite (Nat.add_comm (Z.to_nat a)).
Qed.

(** X1. Adjacent pages concatenate: for each list handler, the page of [a]
    rows after [skip] followed by the page of [b] rows after [skip + a] is
    the page of [a + b] rows after [skip]. *)
Theorem pages_concatenate (db : Store) (skip a b : Z) :
  0 <= skip -> 0 <= a -> 0 <= b ->
  (exists p1 p2,
     fetch_users (Some skip) (Some a) db = (Ok p1, db)
     /\ fetch_users (Some (skip + a)) (Some b) db = (Ok p2, db)
     /\ fetch_users (Some skip) (Some (a + b)) db = (Ok (p1 ++ p2)%list, db))
  /\ (exists p1 p2,
        fetch_mentors (Some skip) (Some a) db = (Ok p1, db)
        /\ fetch_mentors (Some (skip + a)) (Some b) db = (Ok p2, db)
        /\ fetch_mentors (Some skip) (Some (a + b)) db
           = (Ok (p1 ++ p2)%list, db))
  /\ (exists p1 p2,
        fetch_service_providers (Some skip) (Some a) db = (Ok p1, db)
        /\ fetch_service_providers (Some (skip + a)) (Some b) db = (Ok p2, db)
        /\ fetch_service_providers (Some skip) (Some (a + b)) db
           = (Ok (p1 ++ p2)%list, db)).
Proof.
  intros Hs Ha Hb.
  split; [|split]; apply page_concat; assumption.
Qed.

Lemma pages_concatenate_witness :
  0 <= 0 /\ 0 <= 1 /\ 0 <= 1
  /\ exists p1 p2,
       fetch_mentors (Some 0) (Some 1) sample_store = (Ok p1, sample_store)
       /\ fetch_mentors (Some (0 + 1)) (Some 1) sample_store
          = (Ok p2, sample_store)
       /\ fetch_mentors (Some 0) (Some (1 + 1)) sample_store
          = (Ok (p1 ++ p2)%list, sample_store).
Proof.
  assert (H0 : 0 <= 0) by lia.
  assert (H1 : 0 <= 1) by lia.
  split; [exact H0 | split; [exact H1 | split; [exact H1|]]].
  destruct (pages_concatenate sample_store 0 1 1 H0 H1 H1) as (_ & H & _).
  exact H.
Defined.

Lemma page_bounds {R : Type} (tbl : Store -> Table R) (skip limit_ : Z)
  (db : Store) :
  0 <= skip -> 0 <= limit_ ->
  all (limit 0 (offset skip (query tbl))) db = (Ok [], db)
  /\ (Z.of_nat (List.length (rows (tbl db))) <= skip ->
      all (limit limit_ (offset skip (query tbl))) db = (Ok [], db))
  /\ (Z.of_nat (List.length (rows (tbl db))) <= limit_ ->
      all (limit limit_ (offset 0 (query tbl))) db = (Ok (rows (tbl db)), db)).
Proof.
  intros Hs Hn. rewrite !all_offset_limit by lia.
  split; [reflexivity | split]; intro H.
  - rewrite skipn_all2 by lia. now rewrite firstn_nil.
  - simpl skipn. rewrite firstn_all2 by lia. reflexivity.
Qed.

(** X2. The ends of a listing: a limit of 0 gives the empty list; skipping
    at least as many rows as the table holds gives the empty list, not an
    error; and with nothing skipped, a limit of at least the table's size
    gives the whole table. *)
Theorem listing_bounds (db : Store) (skip limit_ : Z) :
  0 <= skip -> 0 <= limit_ ->
  (fetch_users (Some skip) (Some 0) db = (Ok [], db)
   /\ (Z.of_nat (List.length (rows (users db))) <= skip ->
       fetch_users (Some skip) (Some limit_) db = (Ok [], db))
   /\ (Z.of_nat (List.length (rows (users db))) <= limit_ ->
       fetch_users (Some 0) (Some limit_) db = (Ok (rows (users db)), db)))
  /\ (fetch_mentors (Some skip) (Some 0) db = (Ok [], db)
      /\ (Z.of_nat (List.length (rows (mentors db))) <= skip ->
          fetch_mentors (Some skip) (Some limit_) db = (Ok [], db))
      /\ (Z.of_nat (List.length (rows (mentors db))) <= limit_ ->
          fetch_mentors (Some 0) (Some limit_) db
          = (Ok (rows (mentors db)), db)))
  /\ (fetch_service_providers (Some skip) (Some 0) db = (Ok [], db)
      /\ (Z.of_nat (List.length (rows (service_providers db))) <= skip ->
          fetch_service_providers (Some skip) (Some limit_) db = (Ok [], db))
      /\ (Z.of_nat (List.length (rows (service_providers db))) <= limit_ ->
          fetch_service_providers (Some 0) (Some limit_) db
          = (Ok (rows (service_providers db)), db))).
Proof.
  intros Hs Hn.
  split; [|split]; apply page_bounds; assumption.
Qed.

Lemma listing_bounds_witness :
  0 <= 2 /\ 0 <= 5
  /\ Z.of_nat (List.length (rows (mentors sample_store))) <= 2
  /\ Z.of_nat (List.length (rows (mentors sample_store))) <= 5
  /\ fetch_mentors (Some 2) (Some 5) sample_store = (Ok [], sample_store)
  /\ fetch_mentors (Some 0) (Some 5) sample_store
     = (Ok [asha; ravi], sample_store).
Proof.
  assert (H2 : 0 <= 2) by lia.
  assert (H5 : 0 <= 5) by lia.
  assert (L2 : Z.of_nat (List.length (rows (mentors sample_store))) <= 2)
    by (simpl; lia).
  assert (L5 : Z.of_nat (List.length (rows (mentors sample_store))) <= 5)
    by (simpl; lia).
  split; [exact H2 | split; [exact H5 | split; [exact L2 | split; [exact L5|]]]].
  destruct (listing_bounds sample_store 2 5 H2 H5) as (_ & (_ & Hskip & Hall) & _).
  split; [exact (Hskip L2) | exact (Hall L5)].
Defined.

(** *** Mentor registration *)

Lemma skipn_length_app {R : Type} (l more : list R) :
  skipn (List.length l) (l ++ more) = more.
Proof.
  induction l as [|x l IH]; simpl; [reflexivity | exact IH].
Qed.

(** X3. [register_mentor] has no uniqueness check: it returns whenever the
    engine accepts the row.  Whenever it returns, the response is the
    generated id and the five submitted fields, and the mentor is then the
    next row of the listing after the rows that were already there. *)
Theorem register_mentor_then_list (engine : Engine) (db : Store)
  (name : string) (age : Z) (location expertise : string) (experience : Z)
  (limit_ : Z) :
  0 < limit_ ->
  let id := auto_increment (mentors db) in
  let m := Mentor.Build id name age location expertise experience in
  let answer :=
    [ ("id", VInt id); ("name", VStr name); ("age", VInt age);
      ("location", VStr location); ("expertise", VStr expertise);
      ("experience", VInt experience) ] in
  (accepts_mentor engine m = true ->
   exists db',
     register_mentor engine name age location expertise experience db
     = (Ok answer, db'))
  /\ (forall (response : Dict) (db' : Store),
        register_mentor engine name age location expertise experience db
        = (Ok response, db') ->
        response = answer
        /\ fetch_mentors (Some (Z.of_nat (List.length (rows (mentors db)))))
             (Some limit_) db'
           = (Ok [m], db')).
Proof.
  intros Hl id m answer.
  pose proof (register_mentor_by_engine engine db name age location expertise
                experience) as E.
  cbv zeta in E. fold id in E. fold m in E. fold answer in E.
  split.
  - intro Hacc. rewrite E, Hacc. now eexists.
  - intros response db' Hreg. rewrite E in Hreg.
    destruct (accepts_mentor engine m); [|discriminate Hreg].
    injection Hreg as <- <-. split; [reflexivity|].
    unfold fetch_mentors. simpl default.
    rewrite all_offset_limit by lia.
    cbn [mentors rows].
    rewrite Nat2Z.id, skipn_length_app.
    destruct (Z.to_nat limit_) as [|n] eqn:En; [lia|]. simpl.
    now rewrite firstn_nil.
Qed.

Lemma register_mentor_then_list_witness :
  0 < 10
  /\ accepts_mentor mysql_strict
       (Mentor.Build 3 "Sunita" 52 "Mysuru" "Weaving" 30) = true
  /\ exists (response : Dict) (db' : Store),
       register_mentor mysql_strict "Sunita" 52 "Mysuru" "Weaving" 30
         sample_store
       = (Ok response, db')
       /\ fetch_mentors (Some 2) (Some 10) db'
          = (Ok [Mentor.Build 3 "Sunita" 52 "Mysuru" "Weaving" 30], db').
Proof.
  assert (H : 0 < 10) by lia.
  assert (Hacc : accepts_mentor mysql_strict
                   (Mentor.Build 3 "Sunita" 52 "Mysuru" "Weaving" 30) = true)
    by reflexivity.
  split; [exact H | split; [exact Hacc|]].
  destruct (register_mentor_then_list mysql_strict sample_store "Sunita" 52
              "Mysuru" "Weaving" 30 10 H) as [Hret Hlist].
  destruct (Hret Hacc) as [db' Hreg].
  do 2 eexists. split; [exact Hreg|].
  destruct (Hlist _ _ Hreg) as [_ E]. exact E.
Defined.

Lemma map_seq_shift {R : Type} (f : nat -> R) (n : nat) :
  map f (seq 1 n) = map (fun i => f (S i)) (seq 0 n).
Proof.
  rewrite <- seq_shift, map_map. reflexivity.
Qed.

Lemma app_POST_mentors_snd
  (bcrypt_hashpw : string -> string -> string) (engine : Engine)
  (db : Store)
  (name : string) (age : Z) (location expertise : string) (experience : Z) :
  accepts_mentor engine
    (Mentor.Build 0 name age location expertise experience) = true ->
  snd (app bcrypt_hashpw engine
         (POST_mentors name age location expertise experience) db)
  = mkStore (users db)
      (mkTable
         (rows (mentors db)
          ++ [Mentor.Build (auto_increment (mentors db)) name age location
                expertise experience])
         (auto_increment (mentors db) + 1))
      (service_providers db).
Proof.
  intro Hacc. unfold app. rewrite respond_snd.
  pose proof (register_mentor_by_engine engine db name age location expertise
                experience) as E.
  cbv zeta in E. rewrite E.
  change (accepts_mentor engine
            (Mentor.Build (auto_increment (mentors db)) name age location
               expertise experience))
    with (accepts_mentor engine
            (Mentor.Build 0 name age location expertise experience)).
  now rewrite Hacc.
Qed.

Lemma app_POST_service_providers_snd
  (bcrypt_hashpw : string -> string -> string) (engine : Engine)
  (db : Store)
  (name service_type : string) (experience : Z)
  (pricing_model availability : string) :
  accepts_service_provider engine
    (ServiceProvider.Build 0 name service_type experience pricing_model
       availability) = true ->
  snd (app bcrypt_hashpw engine
         (POST_service_providers name service_type experience pricing_model
            availability) db)
  = mkStore (users db) (mentors db)
      (mkTable
         (rows (service_providers db)
          ++ [ServiceProvider.Build (auto_increment (service_providers db))
                name service_type experience pricing_model availability])
         (auto_increment (service_providers db) + 1)).
Proof.
  intro Hacc. unfold app. rewrite respond_snd.
  pose proof (register_service_provider_by_engine engine db name service_type
                experience pricing_model availability) as E.
  cbv zeta in E. rewrite E.
  change (accepts_service_provider engine
            (ServiceProvider.Build (auto_increment (service_providers db))
               name service_type experience pricing_model availability))
    with (accepts_service_provider engine
            (ServiceProvider.Build 0 name service_type experience
               pricing_model availability)).
  now rewrite Hacc.
Qed.

(** X4. Mentors and providers may be registered any number of times with
    the same data: when the engine accepts the data, [n] identical requests
    add [n] rows that differ in their ids only, the ids being the next [n]
    values of the counter. *)
Theorem repeated_registration
  (bcrypt_hashpw : string -> string -> string) (engine : Engine)
  (n : nat) (db : Store)
  (name : string) (age : Z) (location expertise : string) (experience : Z)
  (service_type pricing_model availability : string) :
  (accepts_mentor engine
     (Mentor.Build 0 name age location expertise experience) = true ->
   mentors
     (serve bcrypt_hashpw engine
        (repeat (POST_mentors name age location expertise experience) n) db)
   = mkTable
       (rows (mentors db)
        ++ map (fun i =>
                  Mentor.Build (auto_increment (mentors db) + Z.of_nat i)
                    name age location expertise experience)
             (seq 0 n))
       (auto_increment (mentors db) + Z.of_nat n))
  /\ (accepts_service_provider engine
        (ServiceProvider.Build 0 name service_type experience pricing_model
           availability) = true ->
      service_providers
        (serve bcrypt_hashpw engine
           (repeat
              (POST_service_providers name service_type experience
                 pricing_model availability) n) db)
      = mkTable
          (rows (service_providers db)
           ++ map (fun i =>
                     ServiceProvider.Build
                       (auto_increment (service_providers db) + Z.of_nat i)
                       name service_type experience pricing_model
                       availability)
                (seq 0 n))
          (auto_increment (service_providers db) + Z.of_nat n)).
Proof.
  split; intro Hacc; revert db; induction n as [|n IH]; intro db.
  - simpl. rewrite app_nil_r, Z.add_0_r. now destruct (mentors db).
  - cbn [repeat serve]. rewrite IH, app_POST_mentors_snd by exact Hacc.
    cbn [mentors rows auto_increment].
    rewrite <- app_assoc. cbn [List.app seq map].
    rewrite map_seq_shift, Z.add_0_r. f_equal; [|lia].
    f_equal. f_equal. apply map_ext. intro i. f_equal. lia.
  - simpl. rewrite app_nil_r, Z.add_0_r. now destruct (service_providers db).
  - cbn [repeat serve].
    rewrite IH, app_POST_service_providers_snd by exact Hacc.
    cbn [service_providers rows auto_increment].
    rewrite <- app_assoc. cbn [List.app seq map].
    rewrite map_seq_shift, Z.add_0_r. f_equal; [|lia].
    f_equal. f_equal. apply map_ext. intro i. f_equal. lia.
Qed.

Lemma repeated_registration_witness :
  accepts_mentor mysql_strict
    (Mentor.Build 0 "Sunita" 52 "Mysuru" "Weaving" 30) = true
  /\ accepts_service_provider mysql_strict
       (ServiceProvider.Build 0 "Sunita" "Weaving" 30 "hourly" "weekends")
     = true
  /\ rows (mentors
             (serve sample_hashpw mysql_strict
                (repeat (POST_mentors "Sunita" 52 "Mysuru" "Weaving" 30) 2)
                sample_store))
     = [ asha; ravi;
         Mentor.Build 3 "Sunita" 52 "Mysuru" "Weaving" 30;
         Mentor.Build 4 "Sunita" 52 "Mysuru" "Weaving" 30 ].
Proof.
  assert (Hm : accepts_mentor mysql_strict
                 (Mentor.Build 0 "Sunita" 52 "Mysuru" "Weaving" 30) = true)
    by reflexivity.
  assert (Hp : accepts_service_provider mysql_strict
                 (ServiceProvider.Build 0 "Sunita" "Weaving" 30 "hourly"
                    "weekends") = true)
    by reflexivity.
  split; [exact Hm | split; [exact Hp|]].
  destruct (repeated_registration sample_hashpw mysql_strict 2 sample_store
              "Sunita" 52 "Mysuru" "Weaving" 30 "Weaving" "hourly" "weekends")
    as [E _].
  rewrite (E Hm). reflexivity.
Defined.

(** *** Users *)

Lemma extends_users_In (db db' : Store) (u : User.t) :
  extends db db' -> In u (rows (users db)) -> In u (rows (users db')).
Proof.
  intros [[more E] _] H. rewrite E. apply in_or_app. now left.
Qed.

Lemma stored_email_rejected
  (bcrypt_hashpw : string -> string -> string) (engine : Engine)
  (db db' : Store) (u : User.t)
  (name phone preferred_language role password salt : string) :
  In u (rows (users db)) -> extends db db' ->
  register_user bcrypt_hashpw engine name (User.email u) phone
    preferred_language role password salt db'
  = (Raise (HTTPException 400 "Email already registered"), db').
Proof.
  intros Hin Hext. apply (extends_users_In db db') in Hin; [|exact Hext].
  rewrite register_user_by_find.
  destruct (find_some_email (User.email u) (rows (users db'))) as [v Hv];
    [now exists u|].
  now rewrite Hv.
Qed.

Lemma register_user_ok_stores_email
  (bcrypt_hashpw : string -> string -> string) (engine : Engine)
  (db db1 : Store) (response : Dict)
  (name email phone preferred_language role password salt : string) :
  register_user bcrypt_hashpw engine name email phone preferred_language role
    password salt db = (Ok response, db1) ->
  exists u, In u (rows (users db1)) /\ User.email u = email.
Proof.
  intro Hreg. rewrite register_user_by_find in Hreg.
  destruct (find _ _); [discriminate Hreg|].
  destruct (Nat.ltb _ _); [discriminate Hreg|].
  destruct (accepts_user engine _); [|discriminate Hreg].
  injection Hreg as _ <-.
  eexists. split; [apply in_or_app; right; now left | reflexivity].
Qed.

(** X5. An email stays taken: once a user with an email is stored, and so
    once a registration with that email has returned, every later
    registration with it raises [HTTPException 400] and changes nothing,
    whatever requests were served in between and whatever the other fields
    are. *)
Theorem email_stays_taken
  (bcrypt_hashpw : string -> string -> string) (engine : Engine)
  (db : Store) (email : string) (rs : list Request)
  (name' phone' preferred_language' role' password' salt' : string) :
  ((exists u, In u (rows (users db)) /\ User.email u = email) ->
   register_user bcrypt_hashpw engine name' email phone' preferred_language'
     role' password' salt' (serve bcrypt_hashpw engine rs db)
   = (Raise (HTTPException 400 "Email already registered"),
      serve bcrypt_hashpw engine rs db))
  /\ (forall (name phone preferred_language role password salt : string)
             (response : Dict) (db1 : Store),
        register_user bcrypt_hashpw engine name email phone
          preferred_language role password salt db
        = (Ok response, db1) ->
        register_user bcrypt_hashpw engine name' email phone'
          preferred_language' role' password' salt'
          (serve bcrypt_hashpw engine rs db1)
        = (Raise (HTTPException 400 "Email already registered"),
           serve bcrypt_hashpw engine rs db1)).
Proof.
  split.
  - intros (u & Hin & <-).
    apply (stored_email_rejected _ _ db); [exact Hin | apply serve_extends].
  - intros name phone preferred_language role password salt response db1 Hreg.
    apply register_user_ok_stores_email in Hreg.
    destruct Hreg as (u & Hin & <-).
    apply (stored_email_rejected _ _ db1); [exact Hin | apply serve_extends].
Qed.

Lemma email_stays_taken_witness :
  (exists u, In u (rows (users sample_store))
             /\ User.email u = "priya@example.org")
  /\ fst (register_user sample_hashpw mysql_strict "Priya K"
            "priya@example.org" "5550199" "mr" "mentor" "hunter2" "pepper"
            (serve sample_hashpw mysql_strict
               [POST_mentors "Sunita" 52 "Mysuru" "Weaving" 30] sample_store))
     = Raise (HTTPException 400 "Email already registered")
  /\ exists (response : Dict) (db1 : Store),
       register_user sample_hashpw mysql_strict "Kiran" "kiran@example.org"
         "5550123" "te" "farmer" "hunter2" "pepper" sample_store
       = (Ok response, db1)
       /\ fst (register_user sample_hashpw mysql_strict "Kiran K"
                 "kiran@example.org" "5550199" "mr" "mentor" "other" "salt"
                 (serve sample_hashpw mysql_strict
                    [POST_mentors "Sunita" 52 "Mysuru" "Weaving" 30] db1))
          = Raise (HTTPException 400 "Email already registered").
Proof.
  assert (H : exists u, In u (rows (users sample_store))
                        /\ User.email u = "priya@example.org").
  { exists priya. split; [now left | reflexivity]. }
  split; [exact H | split].
  - destruct (email_stays_taken sample_hashpw mysql_strict sample_store
                "priya@example.org"
                [POST_mentors "Sunita" 52 "Mysuru" "Weaving" 30]
                "Priya K" "5550199" "mr" "mentor" "hunter2" "pepper")
      as [E _].
    now rewrite (E H).
  - assert (Hreg : register_user sample_hashpw mysql_strict "Kiran"
                     "kiran@example.org" "5550123" "te" "farmer" "hunter2"
                     "pepper" sample_store
                   = (Ok [ ("id", VInt 2); ("name", VStr "Kiran");
                           ("email", VStr "kiran@example.org");
                           ("phone", VStr "5550123");
                           ("preferred_language", VStr "te");
                           ("role", VStr "farmer") ],
                      snd (register_user sample_hashpw mysql_strict "Kiran"
                             "kiran@example.org" "5550123" "te" "farmer"
                             "hunter2" "pepper" sample_store)))
      by reflexivity.
    do 2 eexists. split; [exact Hreg|].
    destruct (email_stays_taken sample_hashpw mysql_strict sample_store
                "kiran@example.org"
                [POST_mentors "Sunita" 52 "Mysuru" "Weaving" 30]
                "Kiran K" "5550199" "mr" "mentor" "other" "salt")
      as [_ E].
    now rewrite (E _ _ _ _ _ _ _ _ Hreg).
Defined.

(** X6. The response of [register_user] says nothing about the password:
    with the other fields and the store fixed, any two registrations that
    return, whatever their passwords, salts and hash functions, return the
    same response, and leave stores that agree on both other tables and on
    every column of [users] but [password_hash]. *)
Theorem register_user_response_hides_password
  (h h' : string -> string -> string) (engine : Engine) (db : Store)
  (name email phone preferred_language role : string)
  (password salt password' salt' : string)
  (response response' : Dict) (db1 db1' : Store) :
  register_user h engine name email phone preferred_language role
    password salt db = (Ok response, db1) ->
  register_user h' engine name email phone preferred_language role
    password' salt' db = (Ok response', db1') ->
  let public (u : User.t) :=
    (User.id u, User.name u, User.email u, User.phone u,
     User.preferred_language u, User.role u) in
  response = response'
  /\ map public (rows (users db1)) = map public (rows (users db1'))
  /\ auto_increment (users db1) = auto_increment (users db1')
  /\ mentors db1 = mentors db1'
  /\ service_providers db1 = service_providers db1'.
Proof.
  intros H H' public. rewrite register_user_by_find in H, H'.
  destruct (find _ _); [discriminate H|].
  destruct (Nat.ltb 72 (String.length password)); [discriminate H|].
  destruct (Nat.ltb 72 (String.length password')); [discriminate H'|].
  destruct (accepts_user engine _); [|discriminate H].
  destruct (accepts_user engine _); [|discriminate H'].
  injection H as <- <-. injection H' as <- <-.
  cbn [users rows auto_increment mentors service_providers].
  repeat split. now rewrite !map_app.
Qed.

Lemma register_user_response_hides_password_witness :
  exists (response : Dict) (db1 db1' : Store),
    register_user sample_hashpw mysql_strict "Kiran" "kiran@example.org"
      "5550123" "te" "farmer" "hunter2" "pepper" sample_store
    = (Ok response, db1)
    /\ register_user sample_hashpw mysql_strict "Kiran" "kiran@example.org"
         "5550123" "te" "farmer" "correct horse" "salt" sample_store
       = (Ok response, db1')
    /\ mentors db1 = mentors db1'.
Proof.
  do 3 eexists.
  assert (H : register_user sample_hashpw mysql_strict "Kiran"
                "kiran@example.org" "5550123" "te" "farmer" "hunter2" "pepper"
                sample_store
              = (Ok [ ("id", VInt 2); ("name", VStr "Kiran");
                      ("email", VStr "kiran@example.org");
                      ("phone", VStr "5550123");
                      ("preferred_language", VStr "te");
                      ("role", VStr "farmer") ],
                 snd (register_user sample_hashpw mysql_strict "Kiran"
                        "kiran@example.org" "5550123" "te" "farmer" "hunter2"
                        "pepper" sample_store))) by reflexivity.
  assert (H' : register_user sample_hashpw mysql_strict "Kiran"
                 "kiran@example.org" "5550123" "te" "farmer" "correct horse"
                 "salt" sample_store
               = (Ok [ ("id", VInt 2); ("name", VStr "Kiran");
                       ("email", VStr "kiran@example.org");
                       ("phone", VStr "5550123");
                       ("preferred_language", VStr "te");
                       ("role", VStr "farmer") ],
                  snd (register_user sample_hashpw mysql_strict "Kiran"
                         "kiran@example.org" "5550123" "te" "farmer"
                         "correct horse" "salt" sample_store)))
    by reflexivity.
  split; [exact H | split; [exact H'|]].
  destruct (register_user_response_hides_password sample_hashpw sample_hashpw
              mysql_strict sample_store "Kiran" "kiran@example.org" "5550123"
              "te" "farmer" "hunter2" "pepper" "correct horse" "salt" _ _ _ _
              H H')
    as (_ & _ & _ & Hm & _).
  exact Hm.
Defined.

(** *** What every reachable store satisfies *)

(** X7. In every store reached from the empty one by any sequence of
    requests, no two users have the same email, no two rows of a table have
    the same id, and every id is below its table's counter. *)
Theorem reachable_store_keys
  (bcrypt_hashpw : string -> string -> string) (engine : Engine)
  (rs : list Request) :
  let db := serve bcrypt_hashpw engine rs empty_store in
  NoDup (map User.email (rows (users db)))
  /\ NoDup (map User.id (rows (users db)))
  /\ NoDup (map Mentor.id (rows (mentors db)))
  /\ NoDup (map ServiceProvider.id (rows (service_providers db)))
  /\ Forall (fun u => User.id u < auto_increment (users db)) (rows (users db))
  /\ Forall (fun m => Mentor.id m < auto_increment (mentors db))
       (rows (mentors db))
  /\ Forall (fun p => ServiceProvider.id p
                      < auto_increment (service_providers db))
       (rows (service_providers db)).
Proof.
  intro db.
  destruct (consistent_reachable bcrypt_hashpw engine rs)
    as ([U1 U2] & [M1 M2] & [P1 P2] & E).
  repeat split; assumption.
Qed.

Lemma dense_appended {R : Type} (id : R -> Z) (t : Table R) (r : R) :
  id r = auto_increment t ->
  dense id t ->
  dense id (mkTable (rows t ++ [r]) (auto_increment t + 1)).
Proof.
  intros Hid [Hmap Hctr]. split; cbn [rows auto_increment].
  - rewrite map_app, length_app, Nat.add_comm. cbn [List.length Nat.add].
    rewrite seq_S, map_app, <- Hmap. cbn [map]. rewrite Hid, Hctr.
    do 2 f_equal. lia.
  - rewrite length_app. cbn [List.length]. lia.
Qed.

Lemma dense_app (bcrypt_hashpw : string -> string -> string) (engine : Engine)
  (r : Request)
  (db : Store) :
  dense User.id (users db) /\ dense Mentor.id (mentors db)
  /\ dense ServiceProvider.id (service_providers db) ->
  let db' := snd (app bcrypt_hashpw engine r db) in
  dense User.id (users db') /\ dense Mentor.id (mentors db')
  /\ dense ServiceProvider.id (service_providers db').
Proof.
  intros H db'. pose proof H as (U & M & P). unfold db'.
  destruct r; unfold app; rewrite respond_snd.
  - destruct (register_user_cases bcrypt_hashpw engine db name email phone
                preferred_language role password salt)
      as [[e Hr]|(d & u & Hr & Hid & _)]; rewrite Hr; [exact H|].
    split; [|split; [exact M | exact P]].
    now apply dense_appended.
  - unfold fetch_users. now rewrite all_snd.
  - pose proof (register_mentor_by_engine engine db name age location
                  expertise experience) as Hr.
    cbv zeta in Hr. rewrite Hr.
    destruct (accepts_mentor engine _); [|exact H].
    split; [exact U | split; [|exact P]]. now apply dense_appended.
  - unfold fetch_mentors. now rewrite all_snd.
  - now rewrite search_mentors_snd.
  - pose proof (register_service_provider_by_engine engine db name
                  service_type experience pricing_model availability) as Hr.
    cbv zeta in Hr. rewrite Hr.
    destruct (accepts_service_provider engine _); [|exact H].
    split; [exact U | split; [exact M|]]. now apply dense_appended.
  - unfold fetch_service_providers. now rewrite all_snd.
  - now rewrite fetch_service_provider_snd.
  - now rewrite search_providers_snd.
Qed.

Lemma dense_serve (bcrypt_hashpw : string -> string -> string) (engine : Engine)
  (rs : list Request) (db : Store) :
  dense User.id (users db) /\ dense Mentor.id (mentors db)
  /\ dense ServiceProvider.id (service_providers db) ->
  let db' := serve bcrypt_hashpw engine rs db in
  dense User.id (users db') /\ dense Mentor.id (mentors db')
  /\ dense ServiceProvider.id (service_providers db').
Proof.
  revert db. induction rs as [|r rs IH]; intros db H; [exact H|].
  apply IH. now apply dense_app.
Qed.

Lemma dense_reachable
  (bcrypt_hashpw : string -> string -> string) (engine : Engine)
  (rs : list Request) :
  let db := serve bcrypt_hashpw engine rs empty_store in
  dense User.id (users db) /\ dense Mentor.id (mentors db)
  /\ dense ServiceProvider.id (service_providers db).
Proof.
  apply dense_serve. repeat split.
Qed.

Lemma dense_nth {R : Type} (id : R -> Z) (t : Table R) (i : nat) (r : R) :
  dense id t -> nth_error (rows t) i = Some r -> id r = Z.of_nat (S i).
Proof.
  intros [Hmap _] Hn.
  assert (Hi : (i < List.length (rows t))%nat).
  { apply nth_error_Some. now rewrite Hn. }
  pose proof (map_nth_error id _ _ Hn) as E.
  rewrite Hmap in E.
  rewrite (map_nth_error Z.of_nat i (seq 1 (List.length (rows t)))
             (d := S i)) in E.
  - now injection E.
  - rewrite nth_error_nth' with (d := O) by (now rewrite length_seq).
    now rewrite seq_nth.
Qed.

(** *** Service providers by id *)

Lemma fetch_service_provider_by_find (k : Z) (db : Store) :
  fetch_service_provider k db
  = (match find (fun p => ServiceProvider.id p =? k)
             (rows (service_providers db)) with
     | Some p => Ok p
     | None => Raise (HTTPException 404 "Service provider not found")
     end, db).
Proof.
  unfold fetch_service_provider, bind. rewrite first_filter_by.
  now destruct (find _ _).
Qed.

Lemma extends_providers_In (db db' : Store) (p : ServiceProvider.t) :
  extends db db' ->
  In p (rows (service_providers db)) -> In p (rows (service_providers db')).
Proof.
  intros (_ & _ & [more E]) H. rewrite E. apply in_or_app. now left.
Qed.

Lemma sample_store_consistent : consistent sample_store.
Proof.
  unfold consistent, keys_ok. simpl.
  repeat split;
    repeat (constructor; try lia; simpl;
            try (intro H; repeat (destruct H as [H|H]; [discriminate H|]);
                 exact H)).
Qed.

(** X8. A provider stays retrievable: on a store whose keys are in order, a
    stored provider is returned by a lookup of its id, unchanged, after any
    further sequence of requests. *)
Theorem provider_stays_retrievable
  (bcrypt_hashpw : string -> string -> string) (engine : Engine)
  (db : Store)
  (p : ServiceProvider.t) (rs : list Request) :
  consistent db ->
  In p (rows (service_providers db)) ->
  fetch_service_provider (ServiceProvider.id p)
    (serve bcrypt_hashpw engine rs db)
  = (Ok p, serve bcrypt_hashpw engine rs db).
Proof.
  intros Hc Hin.
  apply (consistent_serve bcrypt_hashpw engine rs) in Hc.
  destruct Hc as (_ & _ & [Hnd _] & _).
  apply (extends_providers_In db (serve bcrypt_hashpw engine rs db)) in Hin;
    [|apply serve_extends].
  rewrite fetch_service_provider_by_find.
  now rewrite (find_id_unique _ _ p Hnd Hin eq_refl).
Qed.

Lemma provider_stays_retrievable_witness :
  consistent sample_store
  /\ In tailor (rows (service_providers sample_store))
  /\ fst (fetch_service_provider 1
            (serve sample_hashpw mysql_strict
               [ POST_service_providers "Lakshmi" "Pottery" 9 "hourly"
                   "weekends";
                 POST_mentors "Sunita" 52 "Mysuru" "Weaving" 30 ]
               sample_store))
     = Ok tailor.
Proof.
  assert (Hin : In tailor (rows (service_providers sample_store)))
    by (now left).
  split; [exact sample_store_consistent | split; [exact Hin|]].
  change 1 with (ServiceProvider.id tailor).
  rewrite (provider_stays_retrievable sample_hashpw mysql_strict sample_store
             tailor
             [ POST_service_providers "Lakshmi" "Pottery" 9 "hourly"
                 "weekends";
               POST_mentors "Sunita" 52 "Mysuru" "Weaving" 30 ]
             sample_store_consistent Hin).
  reflexivity.
Defined.

(** X9. An id that the counter has not reached yet belongs to no provider:
    on a store whose provider keys are in order the lookup raises
    [HTTPException 404] and leaves the store alone. *)
Theorem unissued_provider_id_not_found (db : Store) (provider_id : Z) :
  keys_ok ServiceProvider.id (service_providers db) ->
  auto_increment (service_providers db) <= provider_id ->
  fetch_service_provider provider_id db
  = (Raise (HTTPException 404 "Service provider not found"), db).
Proof.
  intros [_ Hlt] Hk.
  rewrite fetch_service_provider_by_find, find_id_none; [reflexivity|].
  intros p Hin. rewrite Forall_forall in Hlt. apply Hlt in Hin. lia.
Qed.

Lemma unissued_provider_id_not_found_witness :
  keys_ok ServiceProvider.id (service_providers sample_store)
  /\ auto_increment (service_providers sample_store) <= 2
  /\ fetch_service_provider 2 sample_store
     = (Raise (HTTPException 404 "Service provider not found"), sample_store).
Proof.
  assert (H : auto_increment (service_providers sample_store) <= 2)
    by (simpl; lia).
  split; [exact sample_store_keys_ok | split; [exact H|]].
  exact (unissued_provider_id_not_found sample_store 2 sample_store_keys_ok H).
Defined.

(** X10. Starting from the empty store, ids are handed out from 1 without
    gaps, so a lookup by id is a lookup by position: the id [k] finds the
    [k]-th provider registered, and any other integer gives 404. *)
Theorem provider_id_is_position
  (bcrypt_hashpw : string -> string -> string) (engine : Engine)
  (rs : list Request) (k : Z) :
  let db := serve bcrypt_hashpw engine rs empty_store in
  fetch_service_provider k db
  = (match (if 1 <=? k
            then nth_error (rows (service_providers db)) (Z.to_nat k - 1)
            else None) with
     | Some p => Ok p
     | None => Raise (HTTPException 404 "Service provider not found")
     end, db).
Proof.
  intro db.
  destruct (consistent_reachable bcrypt_hashpw engine rs)
    as (_ & _ & [Hnd _] & _).
  destruct (dense_reachable bcrypt_hashpw engine rs) as (_ & _ & Hd).
  fold db in Hnd, Hd.
  rewrite fetch_service_provider_by_find.
  destruct (if 1 <=? k
            then nth_error (rows (service_providers db)) (Z.to_nat k - 1)
            else None) as [p|] eqn:Hn.
  - destruct (Z.leb_spec 1 k) as [Hk|Hk]; [|discriminate Hn].
    pose proof (dense_nth _ _ _ _ Hd Hn) as Hid.
    rewrite (find_id_unique k _ p Hnd); [reflexivity | | lia].
    now apply nth_error_In in Hn.
  - rewrite find_id_none; [reflexivity|].
    intros p Hin Hid. apply In_nth_error in Hin. destruct Hin as [i Hi].
    pose proof (dense_nth _ _ _ _ Hd Hi) as Hp.
    assert (Hk : 1 <= k) by lia.
    destruct (Z.leb_spec 1 k); [|lia].
    replace (Z.to_nat k - 1)%nat with i in Hn by lia.
    rewrite Hi in Hn. discriminate Hn.
Qed.

(** *** Searching with any query *)

Lemma ilike_lower_query (field q q' : string) :
  lower q = lower q' ->
  ilike field (percent_wrap q) = ilike field (percent_wrap q').
Proof.
  intro H. unfold ilike. now rewrite !lower_percent_wrap, H.
Qed.

(** X11. The letters' case in the query does not matter, wildcards or not:
    two queries with the same lower-case form get the same answer from both
    searches. *)
Theorem search_ignores_query_case (db : Store) (q q' : string) :
  lower q = lower q' ->
  search_mentors_by_expertise q db = search_mentors_by_expertise q' db
  /\ search_providers_by_service_type q db
     = search_providers_by_service_type q' db.
Proof.
  intro H.
  rewrite !search_mentors_by_expertise_like,
    !search_providers_by_service_type_like.
  split; do 2 f_equal; apply filter_ext; intro r;
    now apply ilike_lower_query.
Qed.

Lemma search_ignores_query_case_witness :
  lower "taiLORing" = lower "Tailoring"
  /\ search_providers_by_service_type "taiLORing" sample_store
     = search_providers_by_service_type "Tailoring" sample_store
  /\ search_providers_by_service_type "Tailoring" sample_store
     = (Ok [tailor], sample_store).
Proof.
  assert (H : lower "taiLORing" = lower "Tailoring") by reflexivity.
  split; [exact H|].
  destruct (search_ignores_query_case sample_store "taiLORing" "Tailoring" H)
    as [_ E].
  split; [exact E | reflexivity].
Defined.

Lemma found_or_404_cases {R : Type} (c : R -> bool) (l : list R) :
  match found_or_404 (filter c l) with
  | Ok found =>
    found <> []
    /\ forall r, In r found <-> In r l /\ c r = true
  | Raise e =>
    e = HTTPException 404 "No mentors found with the given expertise"
    /\ forall r, In r l -> c r = false
  end.
Proof.
  destruct (filter c l) as [|x found] eqn:E; cbn [found_or_404].
  - split; [reflexivity|]. intros r Hin.
    destruct (c r) eqn:Hc; [|reflexivity].
    assert (H : In r (filter c l)) by (apply filter_In; now split).
    now rewrite E in H.
  - split; [discriminate|]. intro r. rewrite <- E. apply filter_In.
Qed.

(** X12. Whatever the query, a search has two outcomes only.  Either it
    returns a list that is not empty and holds exactly the stored rows whose
    field matches the pattern [%query%]; or it raises [HTTPException 404],
    and then no stored row matches.  It never answers with an empty list and
    never changes the store. *)
Theorem search_outcomes (db : Store) (q : string) :
  match search_mentors_by_expertise q db with
  | (Ok found, db') =>
    db' = db /\ found <> []
    /\ forall m, In m found <->
                 In m (rows (mentors db))
                 /\ ilike (Mentor.expertise m) (percent_wrap q) = true
  | (Raise e, db') =>
    db' = db
    /\ e = HTTPException 404 "No mentors found with the given expertise"
    /\ forall m, In m (rows (mentors db)) ->
                 ilike (Mentor.expertise m) (percent_wrap q) = false
  end
  /\ match search_providers_by_service_type q db with
     | (Ok found, db') =>
       db' = db /\ found <> []
       /\ forall p, In p found <->
                    In p (rows (service_providers db))
                    /\ ilike (ServiceProvider.service_type p) (percent_wrap q)
                       = true
     | (Raise e, db') =>
       db' = db
       /\ e = HTTPException 404 "No mentors found with the given expertise"
       /\ forall p, In p (rows (service_providers db)) ->
                    ilike (ServiceProvider.service_type p) (percent_wrap q)
                    = false
     end.
Proof.
  rewrite search_mentors_by_expertise_like,
    search_providers_by_service_type_like.
  split.
  - pose proof (found_or_404_cases
                  (fun m => ilike (Mentor.expertise m) (percent_wrap q))
                  (rows (mentors db))) as H.
    destruct (found_or_404 _); (split; [reflexivity | exact H]).
  - pose proof (found_or_404_cases
                  (fun p => ilike (ServiceProvider.service_type p)
                              (percent_wrap q))
                  (rows (service_providers db))) as H.
    destruct (found_or_404 _); (split; [reflexivity | exact H]).
Qed.

Lemma found_or_404_later {R : Type} (c : R -> bool) (l more : list R) :
  match found_or_404 (filter c l) with
  | Ok found =>
    found_or_404 (filter c (l ++ more)) = Ok (found ++ filter c more)%list
  | Raise _ =>
    found_or_404 (filter c (l ++ more)) = found_or_404 (filter c more)
  end.
Proof.
  rewrite filter_app. now destruct (filter c l).
Qed.

(** X13. Hits are never lost.  After any further requests each table is the
    old table followed by the rows registered since, and a search then
    answers with what it found before, in the same order, followed by
    exactly the new rows that match; if it found nothing before, it answers
    from the new rows alone. *)
Theorem search_hits_persist
  (bcrypt_hashpw : string -> string -> string) (engine : Engine)
  (db : Store) (q : string) (rs : list Request) :
  let db' := serve bcrypt_hashpw engine rs db in
  exists (new_mentors : list Mentor.t)
         (new_providers : list ServiceProvider.t),
    rows (mentors db') = (rows (mentors db) ++ new_mentors)%list
    /\ rows (service_providers db')
       = (rows (service_providers db) ++ new_providers)%list
    /\ match fst (search_mentors_by_expertise q db) with
       | Ok found =>
         search_mentors_by_expertise q db'
         = (Ok (found
                ++ filter
                     (fun m => ilike (Mentor.expertise m) (percent_wrap q))
                     new_mentors)%list,
            db')
       | Raise _ =>
         search_mentors_by_expertise q db'
         = (found_or_404
              (filter (fun m => ilike (Mentor.expertise m) (percent_wrap q))
                 new_mentors),
            db')
       end
    /\ match fst (search_providers_by_service_type q db) with
       | Ok found =>
         search_providers_by_service_type q db'
         = (Ok (found
                ++ filter
                     (fun p => ilike (ServiceProvider.service_type p)
                                 (percent_wrap q))
                     new_providers)%list,
            db')
       | Raise _ =>
         search_providers_by_service_type q db'
         = (found_or_404
              (filter
                 (fun p => ilike (ServiceProvider.service_type p)
                             (percent_wrap q))
                 new_providers),
            db')
       end.
Proof.
  intro db'.
  destruct (serve_extends bcrypt_hashpw engine rs db)
    as (_ & [ms Hm] & [ps Hp]).
  fold db' in Hm, Hp.
  exists ms, ps. split; [exact Hm | split; [exact Hp|]].
  rewrite !search_mentors_by_expertise_like,
    !search_providers_by_service_type_like, Hm, Hp.
  cbn [fst]. split.
  - pose proof (found_or_404_later
                  (fun m => ilike (Mentor.expertise m) (percent_wrap q))
                  (rows (mentors db)) ms) as H.
    destruct (found_or_404 (filter _ (rows (mentors db)))); now rewrite H.
  - pose proof (found_or_404_later
                  (fun p => ilike (ServiceProvider.service_type p)
                              (percent_wrap q))
                  (rows (service_providers db)) ps) as H.
    destruct (found_or_404 (filter _ (rows (service_providers db))));
      now rewrite H.
Qed.

(** *** Searching for a stored value, and for underscores *)

Lemma append_empty_r (s : string) : (s ++ "")%string = s.
Proof.
  induction s as [|c s IH]; simpl; [reflexivity | now rewrite IH].
Qed.

Lemma like_match_any_string_step (p : list Wild) (c : ascii) (s : string) :
  like_match p s = true -> like_match (AnyString :: p) (String c s) = true.
Proof.
  intro H. rewrite (like_match_any_string p (String c s)).
  rewrite (like_match_any_string p s), H. apply orb_true_r.
Qed.

(** Without a backslash, a string matches itself read as a pattern. *)
Lemma like_match_self (s r t : string) :
  no_backslash s = true ->
  like_match (like_pattern r) t = true ->
  like_match (like_pattern (s ++ r)) (s ++ t) = true.
Proof.
  intros Hs Hr. induction s as [|c s IH]; [exact Hr|].
  simpl in Hs. apply andb_true_iff in Hs. destruct Hs as [Hc Hs].
  apply negb_true_iff in Hc. specialize (IH Hs).
  cbn [append like_pattern]. rewrite Hc.
  destruct (c =? percent)%char.
  - now apply like_match_any_string_step.
  - destruct (c =? underscore)%char eqn:Hu; cbn [like_match].
    + apply Ascii.eqb_eq in Hu. subst c. exact IH.
    + now rewrite Ascii.eqb_refl, IH.
Qed.

Lemma backslash_lower_char (c : ascii) :
  (lower_char c =? backslash)%char = (c =? backslash)%char.
Proof.
  destruct c as [[] [] [] [] [] [] [] []]; reflexivity.
Qed.

Lemma no_backslash_lower (s : string) :
  no_backslash (lower s) = no_backslash s.
Proof.
  induction s as [|c s IH]; simpl; [reflexivity|].
  now rewrite backslash_lower_char, IH.
Qed.

Lemma ilike_self (s : string) :
  no_backslash s = true -> ilike s (percent_wrap s) = true.
Proof.
  intro H. unfold ilike, like. rewrite lower_percent_wrap.
  unfold percent_wrap.
  change (like_pattern (String percent (lower s ++ String percent "")))
    with (AnyString :: like_pattern (lower s ++ String percent "")).
  rewrite like_match_any_string.
  rewrite <- (append_empty_r (lower s)) at 2.
  rewrite like_match_self; [reflexivity | now rewrite no_backslash_lower|].
  reflexivity.
Qed.

Lemma filter_finds {R : Type} (c : R -> bool) (l : list R) (r : R) :
  In r l -> c r = true ->
  exists found, found_or_404 (filter c l) = Ok found /\ In r found.
Proof.
  intros Hin Hc.
  assert (H : In r (filter c l)) by (apply filter_In; now split).
  exists (filter c l). split; [|exact H].
  apply found_or_404_ok. intro E. now rewrite E in H.
Qed.

(** X14. A stored value is found by searching for it: a stored mentor whose
    expertise has no backslash is in the list that the search for exactly
    that expertise returns; and, on its own, a stored provider whose service
    type has no backslash is in the list that the search for exactly that
    service type returns.  Percent signs and underscores in the value do no
    harm. *)
Theorem search_finds_stored_value (db : Store) :
  (forall m : Mentor.t,
     In m (rows (mentors db)) ->
     no_backslash (Mentor.expertise m) = true ->
     exists found,
       search_mentors_by_expertise (Mentor.expertise m) db = (Ok found, db)
       /\ In m found)
  /\ (forall p : ServiceProvider.t,
        In p (rows (service_providers db)) ->
        no_backslash (ServiceProvider.service_type p) = true ->
        exists found,
          search_providers_by_service_type (ServiceProvider.service_type p) db
          = (Ok found, db)
          /\ In p found).
Proof.
  split.
  - intros m Hm Hb. rewrite search_mentors_by_expertise_like.
    destruct (filter_finds
                (fun x => ilike (Mentor.expertise x)
                            (percent_wrap (Mentor.expertise m)))
                (rows (mentors db)) m Hm (ilike_self _ Hb))
      as (found & E & Hin).
    exists found. now rewrite E.
  - intros p Hp Hb. rewrite search_providers_by_service_type_like.
    destruct (filter_finds
                (fun x => ilike (ServiceProvider.service_type x)
                            (percent_wrap (ServiceProvider.service_type p)))
                (rows (service_providers db)) p Hp (ilike_self _ Hb))
      as (found & E & Hin).
    exists found. now rewrite E.
Qed.

Lemma search_finds_stored_value_witness :
  In ravi (rows (mentors sample_store))
  /\ no_backslash (Mentor.expertise ravi) = true
  /\ (exists found,
        search_mentors_by_expertise "Organic farming" sample_store
        = (Ok found, sample_store)
        /\ In ravi found)
  /\ In tailor (rows (service_providers sample_store))
  /\ no_backslash (ServiceProvider.service_type tailor) = true
  /\ exists found,
       search_providers_by_service_type "Tailoring" sample_store
       = (Ok found, sample_store)
       /\ In tailor found.
Proof.
  assert (Hm : In ravi (rows (mentors sample_store)))
    by (right; now left).
  assert (Hbm : no_backslash (Mentor.expertise ravi) = true) by reflexivity.
  assert (Hp : In tailor (rows (service_providers sample_store)))
    by (now left).
  assert (Hbp : no_backslash (ServiceProvider.service_type tailor) = true)
    by reflexivity.
  destruct (search_finds_stored_value sample_store) as [Hmentor Hprovider].
  split; [exact Hm | split; [exact Hbm | split; [exact (Hmentor ravi Hm Hbm)|]]].
  split; [exact Hp | split; [exact Hbp | exact (Hprovider tailor Hp Hbp)]].
Defined.

Lemma ascii_not_continuation (c : ascii) :
  is_ascii c = true -> is_continuation c = false.
Proof.
  unfold is_ascii, is_continuation. intro H.
  apply Nat.ltb_lt in H. apply andb_false_iff. left.
  apply Nat.leb_gt. exact H.
Qed.

Lemma count_chars_drop_continuation (s : string) :
  count_chars true s = count_chars false (drop_continuation s).
Proof.
  induction s as [|c s IH]; [reflexivity|].
  cbn [count_chars drop_continuation].
  destruct (is_continuation c) eqn:Hc; [exact IH|].
  cbn [count_chars]. now rewrite Hc.
Qed.

(** The character that begins a string counts for one. *)
Lemma char_length_step (c : ascii) (s : string) :
  char_length (String c s) = S (char_length (after_char c s)).
Proof.
  unfold char_length, after_char. cbn [count_chars].
  destruct (is_ascii c) eqn:Ha.
  - now rewrite (ascii_not_continuation c Ha).
  - cbn [negb]. rewrite <- count_chars_drop_continuation.
    now destruct (is_continuation c).
Qed.

Lemma count_chars_inside (s : string) :
  (count_chars false s <= S (count_chars true s))%nat.
Proof.
  destruct s as [|c s]; cbn [count_chars]; [lia|].
  destruct (is_continuation c); lia.
Qed.

(** Dropping the first byte does not add a character. *)
Lemma char_length_tail (c : ascii) (s : string) :
  (char_length s <= char_length (String c s))%nat.
Proof.
  unfold char_length. cbn [count_chars].
  pose proof (count_chars_inside s).
  destruct (is_continuation c); [lia|].
  destruct (negb (is_ascii c)); lia.
Qed.

Lemma utf8_class_lower_char (c : ascii) :
  is_ascii (lower_char c) = is_ascii c
  /\ is_continuation (lower_char c) = is_continuation c.
Proof.
  destruct c as [[] [] [] [] [] [] [] []]; split; reflexivity.
Qed.

Lemma count_chars_lower (inside : bool) (s : string) :
  count_chars inside (lower s) = count_chars inside s.
Proof.
  revert inside. induction s as [|c s IH]; intro inside; [reflexivity|].
  cbn [lower count_chars].
  destruct (utf8_class_lower_char c) as [-> ->].
  now rewrite !IH.
Qed.

Lemma lower_underscores (n : nat) : lower (underscores n) = underscores n.
Proof.
  induction n as [|n IH]; simpl; [reflexivity | now rewrite IH].
Qed.

Lemma like_pattern_underscores (n : nat) (r : string) :
  like_pattern (underscores n ++ r) = (repeat AnyChar n ++ like_pattern r)%list.
Proof.
  induction n as [|n IH]; [reflexivity|].
  cbn [underscores append like_pattern repeat List.app].
  change (underscore =? percent)%char with false.
  change (underscore =? underscore)%char with true.
  cbn iota. now rewrite IH.
Qed.

Lemma like_match_any_chars (n : nat) (s : string) :
  like_match (repeat AnyChar n ++ [AnyString]) s
  = (n <=? char_length s)%nat.
Proof.
  revert s. induction n as [|n IH]; intro s.
  - cbn [repeat List.app]. now rewrite like_match_trailing_any.
  - destruct s as [|c s]; [reflexivity|].
    cbn [repeat List.app like_match]. now rewrite IH, char_length_step.
Qed.

Lemma like_match_at_least (n : nat) (s : string) :
  like_match (AnyString :: (repeat AnyChar n ++ [AnyString])%list) s
  = (n <=? char_length s)%nat.
Proof.
  induction s as [|c s IH]; rewrite like_match_any_string, like_match_any_chars.
  - apply orb_false_r.
  - rewrite IH. pose proof (char_length_tail c s).
    destruct (Nat.leb_spec n (char_length (String c s)));
      destruct (Nat.leb_spec n (char_length s)); try reflexivity; lia.
Qed.

Lemma ilike_underscores (field : string) (n : nat) :
  ilike field (percent_wrap (underscores n))
  = (n <=? char_length field)%nat.
Proof.
  unfold ilike, like. rewrite lower_percent_wrap, lower_underscores.
  unfold percent_wrap.
  change (like_pattern (String percent (underscores n ++ String percent "")))
    with (AnyString :: like_pattern (underscores n ++ String percent "")).
  rewrite like_pattern_underscores.
  change (like_pattern (String percent "")) with [AnyString].
  rewrite like_match_at_least. unfold char_length.
  now rewrite count_chars_lower.
Qed.

(** X15. An underscore in the query stands for any one character, of one
    byte or of several: the query made of [n] underscores finds exactly the
    rows whose searched field is at least [n] characters long, in store
    order, and raises 404 when there is none. *)
Theorem search_underscores (db : Store) (n : nat) :
  search_mentors_by_expertise (underscores n) db
  = (found_or_404
       (filter (fun m => (n <=? char_length (Mentor.expertise m))%nat)
          (rows (mentors db))),
     db)
  /\ search_providers_by_service_type (underscores n) db
     = (found_or_404
          (filter
             (fun p =>
                (n <=? char_length (ServiceProvider.service_type p))%nat)
             (rows (service_providers db))),
        db).
Proof.
  rewrite search_mentors_by_expertise_like,
    search_providers_by_service_type_like.
  split; do 2 f_equal; apply filter_ext; intro r; apply ilike_underscores.
Qed.

(** A field of one character of two bytes (e with an acute accent) is found
    by one underscore and not by two. *)
Example search_underscores_two_byte_character :
  let e_acute := String (ascii_of_nat 195) (String (ascii_of_nat 169) "") in
  let db := mkStore empty_table
              (mkTable [Mentor.Build 1 "Zoe" 30 "Pune" e_acute 2] 2)
              empty_table in
  char_length e_acute = 1%nat
  /\ fst (search_mentors_by_expertise "_" db)
     = Ok [Mentor.Build 1 "Zoe" 30 "Pune" e_acute 2]
  /\ fst (search_mentors_by_expertise "__" db)
     = Raise (HTTPException 404 "No mentors found with the given expertise").
Proof. repeat split. Qed.

(** *** A registered user in the listing *)

(** X16. Whenever [register_user] returns, the user listing positioned
    after the rows that were already there returns the new row: the
    submitted fields, the generated id, and as [password_hash] the hash of
    the submitted password under the salt that was drawn. *)
Theorem register_user_then_list
  (bcrypt_hashpw : string -> string -> string) (engine : Engine)
  (db : Store)
  (name email phone preferred_language role password salt : string)
  (limit_ : Z) (response : Dict) (db' : Store) :
  0 < limit_ ->
  register_user bcrypt_hashpw engine name email phone preferred_language role
    password salt db
  = (Ok response, db') ->
  fetch_users (Some (Z.of_nat (List.length (rows (users db))))) (Some limit_)
    db'
  = (Ok [ User.Build (auto_increment (users db)) name email phone
            preferred_language role (bcrypt_hashpw password salt) ],
     db').
Proof.
  intros Hl Hreg. rewrite register_user_by_find in Hreg.
  destruct (find _ _); [discriminate Hreg|].
  destruct (Nat.ltb _ _); [discriminate Hreg|].
  destruct (accepts_user engine _); [|discriminate Hreg].
  injection Hreg as _ <-.
  unfold fetch_users. simpl default.
  rewrite all_offset_limit by lia.
  cbn [users rows].
  rewrite Nat2Z.id, skipn_length_app.
  destruct (Z.to_nat limit_) as [|n] eqn:E; [lia|]. simpl.
  now rewrite firstn_nil.
Qed.

Lemma register_user_then_list_witness :
  0 < 10
  /\ exists (response : Dict) (db' : Store),
       register_user sample_hashpw mysql_strict "Kiran" "kiran@example.org"
         "5550123" "te" "farmer" "hunter2" "pepper" sample_store
       = (Ok response, db')
       /\ fetch_users (Some 1) (Some 10) db'
          = (Ok [ User.Build 2 "Kiran" "kiran@example.org" "5550123" "te"
                    "farmer" (sample_hashpw "hunter2" "pepper") ],
             db').
Proof.
  assert (Hl : 0 < 10) by lia.
  split; [exact Hl|].
  assert (Hreg : register_user sample_hashpw mysql_strict "Kiran"
                   "kiran@example.org" "5550123" "te" "farmer" "hunter2"
                   "pepper" sample_store
                 = (Ok [ ("id", VInt 2); ("name", VStr "Kiran");
                         ("email", VStr "kiran@example.org");
                         ("phone", VStr "5550123");
                         ("preferred_language", VStr "te");
                         ("role", VStr "farmer") ],
                    snd (register_user sample_hashpw mysql_strict "Kiran"
                           "kiran@example.org" "5550123" "te" "farmer"
                           "hunter2" "pepper" sample_store)))
    by reflexivity.
  do 2 eexists. split; [exact Hreg|].
  exact (register_user_then_list sample_hashpw mysql_strict sample_store
           "Kiran" "kiran@example.org" "5550123" "te" "farmer" "hunter2"
           "pepper" 10 _ _ Hl Hreg).
Defined.
